(** * torch-merf: the MeRF-like radiance field network (nerf/network.py)

    A shallow embedding of [MLP], [HashEncoder] and [NeRFNetwork].

    - Scalars are real numbers (the floats of the tensors, idealised).
    - A tensor is an object in a store; [F.relu(x, inplace=True)] overwrites
      the object it is given, every other torch operation used by the file
      builds a new object.
    - A call either returns or raises: a missing attribute, an index
      outside a list of modules or outside the columns of a tensor, and
      operands whose shapes do not fit raise as they do in Python and
      torch.
    - An [N, C] tensor is a list of [N] rows of [C] channels; a batch of
      no points is the empty list, and has the number of channels that the
      shape stated for it gives it. *)

From Stdlib Require Import Reals Lra ZArith Lia.
From stdpp Require Import base list strings gmap.

Local Open Scope Z_scope.

(** ** Tensors *)

(** Tensors of the network are [N, C] (a batch of N points, C channels per
    point) or [N] (one scalar per point). *)
Inductive tensor : Type :=
  | Vec (v : list R)
  | Mat (m : list (list R)).

Definition tmap (g : R → R) (t : tensor) : tensor :=
  match t with
  | Vec v => Vec (map g v)
  | Mat m => Mat (map (map g) m)
  end.

(** The functions of this section give the value of an operation whose
    operands fit.  The operations on tensor objects, further down, test the
    shapes first and raise where torch raises. *)

(** Elementwise sum of two tensors of one shape [N, C]. *)
Definition mat_add (a b : list (list R)) : list (list R) :=
  zip_with (zip_with Rplus) a b.

(** [t[..., cols]] with a list of column numbers (advanced indexing), for
    columns that every row has. *)
Definition take_cols (cols : list nat) (m : list (list R)) : list (list R) :=
  map (λ row, map (λ c, nth c row 0%R) cols) m.

(** [t[..., c]]: one channel that every row has; the last dimension is
    dropped. *)
Definition channel (c : nat) (m : list (list R)) : list R :=
  map (λ row, nth c row 0%R) m.

(** [t[..., start:stop]] and [t[..., start:]] ([stop = None]). *)
Definition slice (start : nat) (stop : option nat) (m : list (list R))
  : list (list R) :=
  map (λ row, match stop with
              | Some e => take (e - start) (drop start row)
              | None => drop start row
              end) m.

(** [torch.cat(ts, dim=-1)] of tensors with one number of rows: rows are
    joined point by point. *)
Fixpoint cat_last (ts : list (list (list R))) : list (list R) :=
  match ts with
  | [] => []
  | [t] => t
  | t :: ts' => zip_with app t (cat_last ts')
  end.

(** [t.squeeze(-1)]: a last dimension of size one is dropped, any other
    shape is left as it is. *)
Definition squeeze_last (t : tensor) : tensor :=
  match t with
  | Mat m =>
      if forallb (λ row, Nat.eqb (length row) 1) m
      then Vec (map (λ row, nth 0 row 0%R) m)
      else Mat m
  | Vec v => Vec v
  end.

(** ** Shapes that fit *)

(** Every row has the columns [cols]. *)
Definition has_cols (cols : list nat) (m : list (list R)) : bool :=
  forallb (λ row, forallb (λ c, c <? length row)%nat cols) m.

(** All tensors of a non-empty list have one number of rows. *)
Definition same_rows (ts : list (list (list R))) : bool :=
  match ts with
  | [] => false
  | t :: ts' => forallb (λ t', length t' =? length t)%nat ts'
  end.

Fixpoint collect {A} (os : list (option A)) : option (list A) :=
  match os with
  | [] => Some []
  | o :: os' =>
      match o, collect os' with
      | Some a, Some l => Some (a :: l)
      | _, _ => None
      end
  end.

(** The sum of two rows under broadcasting: equal lengths, or one of them
    of length one. *)
Definition row_add (u v : list R) : option (list R) :=
  if (length u =? length v)%nat then Some (zip_with Rplus u v)
  else if (length u =? 1)%nat then Some (map (Rplus (nth 0 u 0%R)) v)
  else if (length v =? 1)%nat then Some (map (λ a, a + nth 0 v 0)%R u)
  else None.

(** [a + b] on [N, C] tensors under broadcasting: equal numbers of rows,
    or one of them a single row; [None] when the shapes do not
    broadcast. *)
Definition broadcast_add (a b : list (list R)) : option (list (list R)) :=
  if (length a =? length b)%nat then collect (zip_with row_add a b)
  else if (length a =? 1)%nat then collect (map (row_add (nth 0 a [])) b)
  else if (length b =? 1)%nat
       then collect (map (λ u, row_add u (nth 0 b [])) a)
  else None.

(** ** Scalar functions *)

Definition relu (a : R) : R := Rmax 0 a.
Definition sigmoid (a : R) : R := (1 / (1 + exp (- a)))%R.
(** [torch.clamp(a, lo, hi)] is [min(max(a, lo), hi)]. *)
Definition clamp (lo hi a : R) : R := Rmin (Rmax a lo) hi.

(** Modelled from the spec: [trunc_exp] of the activation module, which is
    not among the sources; its forward pass is the exponential (only the
    backward pass clamps the gradient). *)
Definition trunc_exp (a : R) : R := exp a.

(** ** Exceptions and the store monad *)

Inductive exn : Type :=
  | AttributeError (name : string)
  | IndexError
  | RuntimeError.

Inductive outcome (A : Type) : Type :=
  | Ok (a : A)
  | Raise (e : exn).
Arguments Ok {A} a.
Arguments Raise {A} e.

(** A tensor object is named by its position in the store. *)
Abbreviation loc := nat (only parsing).
Abbreviation heap := (list tensor) (only parsing).

Definition M (A : Type) : Type := heap → outcome A * heap.

Definition ret {A} (a : A) : M A := λ h, (Ok a, h).
Definition raise {A} (e : exn) : M A := λ h, (Raise e, h).
Definition bind {A B} (m : M A) (k : A → M B) : M B :=
  λ h, match m h with
       | (Ok a, h') => k a h'
       | (Raise e, h') => (Raise e, h')
       end.
Definition lift {A} (o : outcome A) : M A := λ h, (o, h).

Notation "x <- m ;; k" := (bind m (λ x, k))
  (at level 100, m at next level, right associativity).

(** A new tensor object. *)
Definition new_tensor (t : tensor) : M loc := λ h, (Ok (length h), h ++ [t]).

(** Reading an object; a name that is not in the store does not denote a
    tensor. *)
Definition get (l : loc) : M tensor :=
  λ h, match h !! l with
       | Some t => (Ok t, h)
       | None => (Raise RuntimeError, h)
       end.

(** Reading an [N, C] tensor. *)
Definition get_mat (l : loc) : M (list (list R)) :=
  t <- get l ;;
  match t with
  | Mat m => ret m
  | Vec _ => raise RuntimeError
  end.

(** Overwriting an object in place. *)
Definition put (l : loc) (t : tensor) : M unit := λ h, (Ok (), <[l := t]> h).

(** ** torch operations on tensor objects *)

Definition torch_map (g : R → R) (x : loc) : M loc :=
  t <- get x ;; new_tensor (tmap g t).

Definition torch_sigmoid : loc → M loc := torch_map sigmoid.
Definition torch_trunc_exp : loc → M loc := torch_map trunc_exp.
Definition torch_sub (x : loc) (c : R) : M loc := torch_map (λ a, a - c)%R x.
Definition torch_clamp (x : loc) (lo hi : R) : M loc := torch_map (clamp lo hi) x.

(** [F.relu(x, inplace=True)]: the object [x] is overwritten and returned. *)
Definition relu_inplace (x : loc) : M loc :=
  t <- get x ;; _ <- put x (tmap relu t) ;; ret x.

(** [a + b]: a shape error when the operands do not broadcast. *)
Definition torch_add (a b : loc) : M loc :=
  va <- get_mat a ;;
  vb <- get_mat b ;;
  match broadcast_add va vb with
  | Some m => new_tensor (Mat m)
  | None => raise RuntimeError
  end.

(** [x[..., cols]]: an index error on a column that [x] does not have. *)
Definition torch_take_cols (x : loc) (cols : list nat) : M loc :=
  v <- get_mat x ;;
  if has_cols cols v then new_tensor (Mat (take_cols cols v))
  else raise IndexError.

(** [x[..., c]]: an index error on a column that [x] does not have. *)
Definition torch_channel (x : loc) (c : nat) : M loc :=
  v <- get_mat x ;;
  if has_cols [c] v then new_tensor (Vec (channel c v))
  else raise IndexError.

Definition torch_slice (x : loc) (start : nat) (stop : option nat) : M loc :=
  v <- get_mat x ;; new_tensor (Mat (slice start stop v)).

Fixpoint get_mats (xs : list loc) : M (list (list (list R))) :=
  match xs with
  | [] => ret []
  | x :: xs' => v <- get_mat x ;; vs <- get_mats xs' ;; ret (v :: vs)
  end.

(** [torch.cat(xs, dim=-1)]: a shape error when the tensors differ in
    their number of rows. *)
Definition torch_cat (xs : list loc) : M loc :=
  vs <- get_mats xs ;;
  if same_rows vs then new_tensor (Mat (cat_last vs))
  else raise RuntimeError.

Definition torch_squeeze (x : loc) : M loc :=
  t <- get x ;; new_tensor (squeeze_last t).

(** ** Modules *)

(** [nn.Linear]: [y = x W^T + b], the bias is absent under [bias=False].
    [dot] and [affine] give the value for a row of as many channels as the
    weight has columns. *)
Record Linear : Type := {
  weight : list (list R);
  bias : option (list R)
}.

Definition dot (u v : list R) : R := foldr Rplus 0%R (zip_with Rmult u v).

Definition affine (L : Linear) (row : list R) : list R :=
  let y := map (λ w, dot row w) (weight L) in
  match bias L with
  | Some b => zip_with Rplus y b
  | None => y
  end.

(** The layer fits the rows of [v]: its weight has as many columns as the
    rows have channels, its bias as many entries as the weight has rows. *)
Definition Linear_fits (L : Linear) (v : list (list R)) : bool :=
  forallb (λ row, forallb (λ w, length w =? length row)%nat (weight L)) v
  && match bias L with
     | Some b => (length b =? length (weight L))%nat
     | None => true
     end.

(** Calling the layer: a shape error on rows that it does not fit. *)
Definition Linear_forward (L : Linear) (x : loc) : M loc :=
  v <- get_mat x ;;
  if Linear_fits L v then new_tensor (Mat (map (affine L) v))
  else raise RuntimeError.

Definition Linear_parameters (L : Linear) : list tensor :=
  Mat (weight L) :: match bias L with Some b => [Vec b] | None => [] end.

(** An encoder made by [get_encoder]: its forward map (the keyword [bound]
    is optional) and the parameters it owns. *)
Record Encoder : Type := {
  enc_forward : list (list R) → option R → list (list R);
  enc_parameters : list tensor
}.

Definition Encoder_call (e : Encoder) (x : loc) (bound : option R) : M loc :=
  v <- get_mat x ;; new_tensor (Mat (enc_forward e v bound)).

Record MLP : Type := {
  dim_in : Z;
  dim_out : Z;
  dim_hidden : Z;
  num_layers : Z;
  net : list Linear
}.

Record HashEncoder : Type := {
  encoder : Encoder;
  in_dim : Z;
  mlp : MLP
}.

Record Opt : Type := {
  cuda_ray : bool;
  opt_bound : R
}.

(** The attributes of a [NeRFNetwork] object; [prop_encoders] and
    [prop_mlp] are attributes that an object may not have. *)
Record NeRFNetwork : Type := {
  opt : Opt;
  bound : R;
  grid : HashEncoder;
  planeXY : HashEncoder;
  planeYZ : HashEncoder;
  planeXZ : HashEncoder;
  view_encoder : Encoder;
  view_in_dim : Z;
  view_mlp : MLP;
  prop_encoders : option (list Encoder);
  prop_mlp : option (list MLP)
}.

(** [range(n)] *)
Definition range (n : Z) : list Z := map Z.of_nat (seq 0 (Z.to_nat n)).

(** [ms[i]] on a list of modules: negative indices count from the end, an
    index outside [-len, len) raises. *)
Definition getitem {A} (ms : list A) (i : Z) : outcome A :=
  let n := Z.of_nat (length ms) in
  if (i <? - n) || (n <=? i) then Raise IndexError
  else match ms !! Z.to_nat (if i <? 0 then i + n else i) with
       | Some m => Ok m
       | None => Raise IndexError
       end.

(** [self.name] for an attribute that may be missing. *)
Definition getattr {A} (name : string) (a : option A) : outcome A :=
  match a with
  | Some v => Ok v
  | None => Raise (AttributeError name)
  end.

(** Arguments of [get_encoder] passed by keyword. *)
Inductive pyarg : Type :=
  | PInt (z : Z)
  | PStr (s : string).

(** The dictionaries returned by [forward] and [density]: a key is bound to
    a tensor object or to [None]. *)
Abbreviation results := (gmap string (option loc)) (only parsing).

Record param_group : Type := {
  params : list tensor;
  lr : R
}.

(** ** class MLP *)

(** The body of [for l in range(self.num_layers)]. *)
Fixpoint MLP_loop (self : MLP) (ls : list Z) (x : loc) : M loc :=
  match ls with
  | [] => ret x
  | l :: ls' =>
      layer <- lift (getitem (net self) l) ;;
      x <- Linear_forward layer x ;;
      x <- (if l =? num_layers self - 1 then ret x else relu_inplace x) ;;
      MLP_loop self ls' x
  end.

Definition MLP_forward (self : MLP) (x : loc) : M loc :=
  MLP_loop self (range (num_layers self)) x.

Definition MLP_parameters (self : MLP) : list tensor :=
  flat_map Linear_parameters (net self).

(** ** class HashEncoder *)

Definition HashEncoder_forward (self : HashEncoder) (x : loc) (bound : R)
  : M loc :=
  e <- Encoder_call (encoder self) x (Some bound) ;;
  MLP_forward (mlp self) e.

Definition HashEncoder_parameters (self : HashEncoder) : list tensor :=
  enc_parameters (encoder self) ++ MLP_parameters (mlp self).

(** ** class NeRFNetwork *)

Definition common_forward (self : NeRFNetwork) (x : loc)
  : M (loc * loc * loc * loc) :=
  f_grid <- HashEncoder_forward (grid self) x (bound self) ;;
  x01 <- torch_take_cols x [0; 1]%nat ;;
  f_plane_01 <- HashEncoder_forward (planeXY self) x01 (bound self) ;;
  x12 <- torch_take_cols x [1; 2]%nat ;;
  f_plane_12 <- HashEncoder_forward (planeYZ self) x12 (bound self) ;;
  x02 <- torch_take_cols x [0; 2]%nat ;;
  f_plane_02 <- HashEncoder_forward (planeXZ self) x02 (bound self) ;;
  ret (f_grid, f_plane_01, f_plane_12, f_plane_02).

(** [f_grid + f_plane_01 + f_plane_12 + f_plane_02], left to right. *)
Definition sum_features (fs : loc * loc * loc * loc) : M loc :=
  let '(f_grid, f_plane_01, f_plane_12, f_plane_02) := fs in
  f <- torch_add f_grid f_plane_01 ;;
  f <- torch_add f f_plane_12 ;;
  torch_add f f_plane_02.

(** [trunc_exp(t - 1)] *)
Definition sigma_of (t : loc) : M loc :=
  t1 <- torch_sub t 1 ;; torch_trunc_exp t1.

Definition forward (self : NeRFNetwork) (x d : loc) (shading : string)
  : M results :=
  fs <- common_forward self x ;;
  f <- sum_features fs ;;
  f0 <- torch_channel f 0 ;;
  sigma <- sigma_of f0 ;;
  f13 <- torch_slice f 1 (Some 4%nat) ;;
  diffuse <- torch_sigmoid f13 ;;
  f4 <- torch_slice f 4 None ;;
  f_specular <- torch_sigmoid f4 ;;
  d <- Encoder_call (view_encoder self) d None ;;
  cs <- (if String.eqb shading "diffuse"
         then ret (diffuse, None)
         else
           c <- torch_cat [diffuse; f_specular; d] ;;
           specular <- MLP_forward (view_mlp self) c ;;
           specular <- torch_sigmoid specular ;;
           if String.eqb shading "specular"
           then ret (specular, Some specular)
           else
             s <- torch_add specular diffuse ;;
             color <- torch_clamp s 0 1 ;;
             ret (color, Some specular)) ;;
  ret ({[ "sigma" := Some sigma;
          "color" := Some (fst cs);
          "specular" := snd cs ]} : results).

Definition density (self : NeRFNetwork) (x : loc) (proposal : Z)
  : M results :=
  valid <- (if 0 <=? proposal
            then encs <- lift (getattr "prop_encoders" (prop_encoders self)) ;;
                 ret (proposal <? Z.of_nat (length encs))
            else ret false) ;;
  sigma <- (if valid : bool
            then
              mlps <- lift (getattr "prop_mlp" (prop_mlp self)) ;;
              pm <- lift (getitem mlps proposal) ;;
              encs <- lift (getattr "prop_encoders" (prop_encoders self)) ;;
              pe <- lift (getitem encs proposal) ;;
              e <- Encoder_call pe x (Some (bound self)) ;;
              y <- MLP_forward pm e ;;
              y <- torch_squeeze y ;;
              sigma_of y
            else
              fs <- common_forward self x ;;
              f <- sum_features fs ;;
              f0 <- torch_channel f 0 ;;
              sigma_of f0) ;;
  ret ({[ "sigma" := Some sigma ]} : results).

Definition group (ps : list tensor) (lr : R) : param_group :=
  {| params := ps; lr := lr |}.

Definition get_params (self : NeRFNetwork) (lr : R)
  : outcome (list param_group) :=
  let params :=
    [] ++ [ group (HashEncoder_parameters (grid self)) lr;
            group (HashEncoder_parameters (planeXY self)) lr;
            group (HashEncoder_parameters (planeYZ self)) lr;
            group (HashEncoder_parameters (planeXZ self)) lr;
            group (MLP_parameters (view_mlp self)) lr ] in
  if negb (cuda_ray (opt self))
  then
    match getattr "prop_encoders" (prop_encoders self) with
    | Raise e => Raise e
    | Ok encs =>
        match getattr "prop_mlp" (prop_mlp self) with
        | Raise e => Raise e
        | Ok mlps =>
            Ok (params ++ [ group (flat_map enc_parameters encs) lr;
                            group (flat_map MLP_parameters mlps) lr ])
        end
    end
  else Ok params.

(** ** Construction *)

Section Construction.

(** The constructors of the libraries.  Each call makes a module with
    parameters of its own: the first argument names the module by the
    attribute path it is stored under. *)
Variable get_encoder : string → string → list (string * pyarg) → Encoder * Z.
Variable nn_Linear : string → Z → Z → Z → bool → Linear.

Definition MLP_init (owner : string)
    (dim_in dim_out dim_hidden num_layers : Z) (bias : bool) : MLP :=
  {| dim_in := dim_in;
     dim_out := dim_out;
     dim_hidden := dim_hidden;
     num_layers := num_layers;
     net := map (λ l, nn_Linear owner l
                        (if l =? 0 then dim_in else dim_hidden)
                        (if l =? num_layers - 1 then dim_out else dim_hidden)
                        bias)
                (range num_layers) |}.

Definition HashEncoder_init (owner : string)
    (input_dim level_dim num_levels log2_hashmap_size desired_resolution
     output_dim num_layers hidden_dim : Z) : HashEncoder :=
  let '(enc, n) :=
    get_encoder (owner +:+ ".encoder") "tiledgrid"
      [ ("input_dim", PInt input_dim); ("level_dim", PInt level_dim);
        ("num_levels", PInt num_levels);
        ("log2_hashmap_size", PInt log2_hashmap_size);
        ("desired_resolution", PInt desired_resolution);
        ("interpolation", PStr "linear") ] in
  {| encoder := enc;
     in_dim := n;
     mlp := MLP_init (owner +:+ ".mlp") n output_dim hidden_dim num_layers
              false |}.

(** The proposal network number [i]: a hash grid and a two-layer MLP. *)
Definition prop_init (i : string) (desired_resolution : Z) : Encoder * MLP :=
  let '(enc, n) :=
    get_encoder ("prop_encoders." +:+ i) "hashgrid"
      [ ("input_dim", PInt 3); ("level_dim", PInt 2);
        ("num_levels", PInt 5); ("log2_hashmap_size", PInt 17);
        ("desired_resolution", PInt desired_resolution) ] in
  (enc, MLP_init ("prop_mlp." +:+ i) n 1 16 2 false).

(** Modelled from the spec: [NeRFRenderer.__init__] of nerf/renderer.py,
    which is not among the sources; it keeps [opt] and takes the scene
    bound from it. *)
Definition NeRFRenderer_bound (opt : Opt) : R := opt_bound opt.

Definition NeRFNetwork_init (opt : Opt) : NeRFNetwork :=
  let '(venc, vdim) :=
    get_encoder "view_encoder" "frequency"
      [ ("input_dim", PInt 3); ("multires", PInt 4) ] in
  let '(prop0_encoder, prop0_mlp) := prop_init "0" 128 in
  let '(prop1_encoder, prop1_mlp) := prop_init "1" 256 in
  {| opt := opt;
     bound := NeRFRenderer_bound opt;
     grid := HashEncoder_init "grid" 3 2 16 19 512 8 2 64;
     planeXY := HashEncoder_init "planeXY" 2 2 16 19 2048 8 2 64;
     planeYZ := HashEncoder_init "planeYZ" 2 2 16 19 2048 8 2 64;
     planeXZ := HashEncoder_init "planeXZ" 2 2 16 19 2048 8 2 64;
     view_encoder := venc;
     view_in_dim := vdim;
     view_mlp := MLP_init "view_mlp" (3 + 4 + vdim) 3 16 3 true;
     prop_encoders :=
       if negb (cuda_ray opt)
       then Some (([] ++ [prop0_encoder]) ++ [prop1_encoder])
       else None;
     prop_mlp :=
       if negb (cuda_ray opt)
       then Some (([] ++ [prop0_mlp]) ++ [prop1_mlp])
       else None |}.

End Construction.

(** ** The values the calls compute

    What each call leaves in the store, as a function of the values of its
    arguments. *)

(** [num_layers] linear transforms, ReLU after every layer except the
    last. *)
Fixpoint MLP_apply (layers : list Linear) (v : list (list R))
  : list (list R) :=
  match layers with
  | [] => v
  | L :: ls =>
      match ls with
      | [] => map (affine L) v
      | _ :: _ => MLP_apply ls (map (map relu) (map (affine L) v))
      end
  end.

(** The tensor objects an MLP makes, one per layer, as they are when the
    call returns. *)
Fixpoint MLP_cells (layers : list Linear) (v : list (list R)) : list tensor :=
  match layers with
  | [] => []
  | L :: ls =>
      match ls with
      | [] => [Mat (map (affine L) v)]
      | _ :: _ =>
          let a := map (map relu) (map (affine L) v) in
          Mat a :: MLP_cells ls a
      end
  end.

(** The object an MLP returns: its argument when it has no layer, the
    object of the last layer otherwise ([n] objects are in the store at
    the call). *)
Definition MLP_loc (layers : list Linear) (x : loc) (n : nat) : loc :=
  match layers with
  | [] => x
  | _ :: _ => (n + length layers - 1)%nat
  end.

(** Every layer that [forward] asks for is there. *)
Definition MLP_wf (m : MLP) : Prop :=
  length (net m) = Z.to_nat (num_layers m).

Definition HashEncoder_value (e : HashEncoder) (v : list (list R)) (b : R)
  : list (list R) :=
  MLP_apply (net (mlp e)) (enc_forward (encoder e) v (Some b)).

(** The elementwise sum of the four spatial encoder outputs. *)
Definition f_value (self : NeRFNetwork) (xv : list (list R))
  : list (list R) :=
  mat_add
    (mat_add
       (mat_add (HashEncoder_value (grid self) xv (bound self))
          (HashEncoder_value (planeXY self) (take_cols [0; 1]%nat xv)
             (bound self)))
       (HashEncoder_value (planeYZ self) (take_cols [1; 2]%nat xv)
          (bound self)))
    (HashEncoder_value (planeXZ self) (take_cols [0; 2]%nat xv) (bound self)).

Definition sigma_value (self : NeRFNetwork) (xv : list (list R)) : list R :=
  map trunc_exp (map (λ a, a - 1)%R (channel 0 (f_value self xv))).

Definition diffuse_value (self : NeRFNetwork) (xv : list (list R))
  : list (list R) :=
  map (map sigmoid) (slice 1 (Some 4%nat) (f_value self xv)).

Definition f_specular_value (self : NeRFNetwork) (xv : list (list R))
  : list (list R) :=
  map (map sigmoid) (slice 4 None (f_value self xv)).

Definition specular_value (self : NeRFNetwork) (xv dv : list (list R))
  : list (list R) :=
  map (map sigmoid)
    (MLP_apply (net (view_mlp self))
       (cat_last [diffuse_value self xv; f_specular_value self xv;
                  enc_forward (view_encoder self) dv None])).

Definition prop_sigma_value (pe : Encoder) (pm : MLP) (b : R)
    (xv : list (list R)) : tensor :=
  tmap trunc_exp
    (tmap (λ a, a - 1)%R
       (squeeze_last (Mat (MLP_apply (net pm) (enc_forward pe xv (Some b)))))).

(** ** Reasoning about calls *)

(** [h'] holds the objects of [h], unchanged, and possibly new ones. *)
Definition extends (h h' : heap) : Prop := ∃ ts, h' = h ++ ts.

(** The call returns, and what it returns and the store it leaves are as
    [Q] says. *)
Definition wp {A} (m : M A) (h : heap) (Q : A → heap → Prop) : Prop :=
  ∃ a h', m h = (Ok a, h') ∧ Q a h'.

(** The four feature tensors of [common_forward] are in the store. *)
Definition features_at (self : NeRFNetwork) (xv : list (list R))
    (fs : loc * loc * loc * loc) (h : heap) : Prop :=
  let '(f_grid, f_plane_01, f_plane_12, f_plane_02) := fs in
  h !! f_grid = Some (Mat (HashEncoder_value (grid self) xv (bound self))) ∧
  h !! f_plane_01
    = Some (Mat (HashEncoder_value (planeXY self) (take_cols [0; 1]%nat xv)
                   (bound self))) ∧
  h !! f_plane_12
    = Some (Mat (HashEncoder_value (planeYZ self) (take_cols [1; 2]%nat xv)
                   (bound self))) ∧
  h !! f_plane_02
    = Some (Mat (HashEncoder_value (planeXZ self) (take_cols [0; 2]%nat xv)
                   (bound self))).

(** The color of [forward], by shading mode. *)
Definition color_value (self : NeRFNetwork) (xv dv : list (list R))
    (shading : string) : list (list R) :=
  if String.eqb shading "diffuse" then diffuse_value self xv
  else if String.eqb shading "specular" then specular_value self xv dv
  else map (map (clamp 0 1))
         (mat_add (specular_value self xv dv) (diffuse_value self xv)).

(** The value bound to [key] in a dictionary of results: a tensor of the
    store, or [None]. *)
Definition value_at (r : results) (key : string) (h : heap)
  : option (option tensor) :=
  match r !! key with
  | Some (Some l) => match h !! l with Some t => Some (Some t) | None => None end
  | Some None => Some None
  | None => None
  end.

(** What [forward] returns: the dictionary and the tensors it names. *)
Definition forward_post (self : NeRFNetwork) (xv dv : list (list R))
    (shading : string) (r : results) (h : heap) : Prop :=
  ∃ (ls lc : loc) (sp : option loc),
    r = {[ "sigma" := Some ls; "color" := Some lc; "specular" := sp ]} ∧
    h !! ls = Some (Vec (sigma_value self xv)) ∧
    h !! lc = Some (Mat (color_value self xv dv shading)) ∧
    if String.eqb shading "diffuse" then sp = None
    else ∃ l, sp = Some l ∧ h !! l = Some (Mat (specular_value self xv dv)).

(** What [density] returns: a dictionary with the one key [sigma]. *)
Definition density_post (t : tensor) (r : results) (h : heap) : Prop :=
  ∃ ls : loc, r = {[ "sigma" := Some ls ]} ∧ h !! ls = Some t.

(** The guard of [density] is false: the proposal is negative, or it is
    not below the number of proposal networks. *)
Definition full_path (self : NeRFNetwork) (proposal : Z) : Prop :=
  proposal < 0 ∨
  ∃ encs, prop_encoders self = Some encs ∧ Z.of_nat (length encs) <= proposal.

(** The same object with other proposal attributes (or none). *)
Definition set_props (self : NeRFNetwork) (pe : option (list Encoder))
    (pm : option (list MLP)) : NeRFNetwork :=
  {| opt := opt self;
     bound := bound self;
     grid := grid self;
     planeXY := planeXY self;
     planeYZ := planeYZ self;
     planeXZ := planeXZ self;
     view_encoder := view_encoder self;
     view_in_dim := view_in_dim self;
     view_mlp := view_mlp self;
     prop_encoders := pe;
     prop_mlp := pm |}.

(** The four tensors that a result of [common_forward] names. *)
Definition tensors_at (fs : loc * loc * loc * loc) (h : heap)
  : option tensor * option tensor * option tensor * option tensor :=
  let '(f_grid, f_plane_01, f_plane_12, f_plane_02) := fs in
  (h !! f_grid, h !! f_plane_01, h !! f_plane_12, h !! f_plane_02).

(** Every entry of an [N, C] tensor lies in [0, 1]. *)
Definition in_unit_range (m : list (list R)) : Prop :=
  Forall (Forall (λ a, 0 <= a <= 1)%R) m.

(** ** Shapes and contracts of the libraries *)

(** An [N, C] tensor: [n] rows of [c] channels. *)
Definition has_shape (n c : nat) (m : list (list R)) : Prop :=
  length m = n ∧ Forall (λ row, length row = c) m.


(** What [nn.Linear(in, out, bias=b)] makes: a weight of [out] rows and
    [in] columns, and [out] biases exactly when [b] is true. *)
Definition Linear_contract (nn_Linear : string → Z → Z → Z → bool → Linear)
  : Prop :=
  ∀ owner l i o b,
    has_shape (Z.to_nat o) (Z.to_nat i) (weight (nn_Linear owner l i o b)) ∧
    match bias (nn_Linear owner l i o b) with
    | Some bv => b = true ∧ length bv = Z.to_nat o
    | None => b = false
    end.

(** What [get_encoder] returns: an encoder and the number of channels it
    puts out, for every row of its input. *)
Definition encoder_contract
    (get_encoder : string → string → list (string * pyarg) → Encoder * Z)
  : Prop :=
  ∀ owner kind kw v b,
    has_shape (length v) (Z.to_nat (snd (get_encoder owner kind kw)))
      (enc_forward (fst (get_encoder owner kind kw)) v b).

(** The layers fit rows of [c] channels: each weight has as many columns
    as the rows it is applied to have channels, each bias as many entries
    as its weight has rows (torch raises on a layer that does not fit). *)
Fixpoint layers_fit (c : nat) (layers : list Linear) : Prop :=
  match layers with
  | [] => True
  | L :: ls =>
      Forall (λ w, length w = c) (weight L) ∧
      (∀ bv, bias L = Some bv → length bv = length (weight L)) ∧
      layers_fit (length (weight L)) ls
  end.

(** The MLP of a [HashEncoder] fits its encoder, and puts out [w]
    channels: the encoder puts out rows of some width [c] for every input,
    the layers fit rows of [c] channels, and the last one has [w] rows. *)
Definition HashEncoder_fits (e : HashEncoder) (w : nat) : Prop :=
  MLP_wf (mlp e) ∧
  ∃ c, (∀ v b, has_shape (length v) c (enc_forward (encoder e) v b)) ∧
       layers_fit c (net (mlp e)) ∧
       ∀ n v, has_shape n c v → has_shape n w (MLP_apply (net (mlp e)) v).

(** The four spatial encoders put out 8 channels each. *)
Definition spatial_fits (self : NeRFNetwork) : Prop :=
  HashEncoder_fits (grid self) 8 ∧ HashEncoder_fits (planeXY self) 8 ∧
  HashEncoder_fits (planeYZ self) 8 ∧ HashEncoder_fits (planeXZ self) 8.

(** The view MLP takes the 3 diffuse channels, the 4 specular features and
    the encoded direction, and puts out 3 channels. *)
Definition view_fits (self : NeRFNetwork) : Prop :=
  MLP_wf (view_mlp self) ∧
  ∃ c, (∀ v b, has_shape (length v) c (enc_forward (view_encoder self) v b)) ∧
       layers_fit (3 + (4 + c)) (net (view_mlp self)) ∧
       ∀ n v, has_shape n (3 + (4 + c)) v →
              has_shape n 3 (MLP_apply (net (view_mlp self)) v).

(** A proposal MLP fits its encoder. *)
Definition prop_fits (pe : Encoder) (pm : MLP) : Prop :=
  MLP_wf pm ∧
  ∃ c, (∀ v b, has_shape (length v) c (enc_forward pe v b)) ∧
       layers_fit c (net pm).

(** The same object with another [view_mlp]. *)
Definition set_view_mlp (self : NeRFNetwork) (m : MLP) : NeRFNetwork :=
  {| opt := opt self;
     bound := bound self;
     grid := grid self;
     planeXY := planeXY self;
     planeYZ := planeYZ self;
     planeXZ := planeXZ self;
     view_encoder := view_encoder self;
     view_in_dim := view_in_dim self;
     view_mlp := m;
     prop_encoders := prop_encoders self;
     prop_mlp := prop_mlp self |}.

(** ** A small network to evaluate the calls on *)

Definition toy_get_encoder (owner kind : string) (kw : list (string * pyarg))
  : Encoder * Z :=
  ({| enc_forward := λ v _, map (λ _, [1%R; 1%R]) v;
      enc_parameters := [Mat [[1%R; 1%R]]] |}, 2).

Definition toy_nn_Linear (owner : string) (l i o : Z) (b : bool) : Linear :=
  {| weight := replicate (Z.to_nat o) (replicate (Z.to_nat i) 0%R);
     bias := if b then Some (replicate (Z.to_nat o) 0%R) else None |}.

Definition toy_network (cuda : bool) : NeRFNetwork :=
  NeRFNetwork_init toy_get_encoder toy_nn_Linear
    {| cuda_ray := cuda; opt_bound := 1%R |}.

(** One point [x = (0, 0, 0)] and one direction [d = (0, 0, 1)]. *)
Definition toy_heap : heap := [Mat [[0; 0; 0]%R]; Mat [[0; 0; 1]%R]].

(** * Proofs *)

(** ** The helpers, on small inputs *)

Example range_3 : range 3 = [0; 1; 2].
Proof. reflexivity. Qed.

Example range_negative : range (-1) = [].
Proof. reflexivity. Qed.

Example getitem_last : getitem [10; 20; 30] (-1) = Ok 30.
Proof. reflexivity. Qed.

Example getitem_outside : getitem [10; 20; 30] 3 = Raise IndexError.
Proof. reflexivity. Qed.

Example take_cols_02 : take_cols [0; 2]%nat [[1; 2; 3]%R] = [[1; 3]%R].
Proof. reflexivity. Qed.

Example slice_1_4 :
  slice 1 (Some 4%nat) [[0; 1; 2; 3; 4; 5; 6; 7]%R] = [[1; 2; 3]%R].
Proof. reflexivity. Qed.

Example slice_4 : slice 4 None [[0; 1; 2; 3; 4; 5; 6; 7]%R] = [[4; 5; 6; 7]%R].
Proof. reflexivity. Qed.

Example cat_last_3 :
  cat_last [[[1; 2]%R]; [[3]%R]; [[4; 5]%R]] = [[1; 2; 3; 4; 5]%R].
Proof. reflexivity. Qed.

Example squeeze_last_column : squeeze_last (Mat [[1]%R; [2]%R]) = Vec [1; 2]%R.
Proof. reflexivity. Qed.

Example squeeze_last_wide : squeeze_last (Mat [[1; 2]%R]) = Mat [[1; 2]%R].
Proof. reflexivity. Qed.

Example take_cols_missing :
  torch_take_cols 0%nat [1; 2]%nat [Mat [[1; 2]%R]]
  = (Raise IndexError, [Mat [[1; 2]%R]]).
Proof. reflexivity. Qed.

Example cat_rows_differ :
  torch_cat [0; 1]%nat [Mat [[1]%R]; Mat [[2]%R; [3]%R]]
  = (Raise RuntimeError, [Mat [[1]%R]; Mat [[2]%R; [3]%R]]).
Proof. reflexivity. Qed.

Example add_shapes_differ :
  torch_add 0%nat 1%nat [Mat [[1; 2]%R]; Mat [[1; 2; 3]%R]]
  = (Raise RuntimeError, [Mat [[1; 2]%R]; Mat [[1; 2; 3]%R]]).
Proof. reflexivity. Qed.

Example add_broadcasts :
  broadcast_add [[1; 2]%R; [3; 4]%R] [[10]%R]
  = Some [[1 + 10; 2 + 10]%R; [3 + 10; 4 + 10]%R].
Proof. reflexivity. Qed.

Example Linear_misfit :
  Linear_forward {| weight := [[1; 1; 1]%R]; bias := None |} 0%nat
    [Mat [[1; 2]%R]]
  = (Raise RuntimeError, [Mat [[1; 2]%R]]).
Proof. reflexivity. Qed.

Example relu_inplace_overwrites :
  relu_inplace 0%nat [Vec [1%R]] = (Ok 0%nat, [Vec [relu 1]]).
Proof. reflexivity. Qed.

(** ** Scalars *)



Lemma clamp_id lo hi a : (lo <= a <= hi)%R → clamp lo hi a = a.
Proof.
  intros [Hlo Hhi]. unfold clamp.
  rewrite Rmax_left by exact Hlo. now rewrite Rmin_left.
Qed.


Lemma sigmoid_0 : sigmoid 0 = (1 / 2)%R.
Proof. unfold sigmoid. rewrite Ropp_0, exp_0. lra. Qed.

(** ** The store *)

Lemma extends_refl (h : heap) : extends h h.
Proof. exists []. now rewrite app_nil_r. Qed.

Lemma extends_trans (h1 h2 h3 : heap) :
  extends h1 h2 → extends h2 h3 → extends h1 h3.
Proof. intros [t1 ->] [t2 ->]. exists (t1 ++ t2). now rewrite app_assoc. Qed.

Lemma extends_app (h ts : heap) : extends h (h ++ ts).
Proof. now exists ts. Qed.

Lemma extends_lookup (h h' : heap) (l : loc) (t : tensor) :
  extends h h' → h !! l = Some t → h' !! l = Some t.
Proof. intros [ts ->] Hl. now apply lookup_app_l_Some. Qed.

Lemma lookup_snoc (h : heap) (t : tensor) : (h ++ [t]) !! length h = Some t.
Proof. rewrite lookup_app_r by lia. now rewrite Nat.sub_diag. Qed.

Lemma insert_snoc (h : heap) (t t' : tensor) :
  <[length h := t']> (h ++ [t]) = h ++ [t'].
Proof.
  rewrite insert_app_r_alt by lia. now rewrite Nat.sub_diag.
Qed.

(** ** Running a call *)

Lemma bind_ok {A B} (m : M A) (k : A → M B) h a h' :
  m h = (Ok a, h') → bind m k h = k a h'.
Proof. intros E. unfold bind. now rewrite E. Qed.

Lemma bind_raise {A B} (m : M A) (k : A → M B) h e h' :
  m h = (Raise e, h') → bind m k h = (Raise e, h').
Proof. intros E. unfold bind. now rewrite E. Qed.

Lemma get_ok h l t : h !! l = Some t → get l h = (Ok t, h).
Proof. intros E. unfold get. now rewrite E. Qed.

Lemma get_mat_ok h l m : h !! l = Some (Mat m) → get_mat l h = (Ok m, h).
Proof.
  intros E. unfold get_mat. now rewrite (bind_ok _ _ _ _ _ (get_ok _ _ _ E)).
Qed.

Lemma wp_ret {A} (a : A) h (Q : A → heap → Prop) : Q a h → wp (ret a) h Q.
Proof. intros HQ. now exists a, h. Qed.

Lemma wp_bind {A B} (m : M A) (k : A → M B) h (Q : B → heap → Prop) :
  wp m h (λ a h', wp (k a) h' Q) → wp (bind m k) h Q.
Proof.
  intros (a & h' & E & b & h'' & E' & HQ).
  exists b, h''. split; [| exact HQ]. now rewrite (bind_ok _ _ _ _ _ E).
Qed.

Lemma wp_lift {A} (a : A) h (Q : A → heap → Prop) : Q a h → wp (lift (Ok a)) h Q.
Proof. intros HQ. now exists a, h. Qed.

Lemma wp_new_tensor t h (Q : loc → heap → Prop) :
  (∀ l h', extends h h' → h' !! l = Some t → Q l h') → wp (new_tensor t) h Q.
Proof.
  intros HQ. exists (length h), (h ++ [t]). split; [reflexivity |].
  apply HQ; [apply extends_app | apply lookup_snoc].
Qed.

Lemma wp_get_mat x h v (Q : list (list R) → heap → Prop) :
  h !! x = Some (Mat v) → Q v h → wp (get_mat x) h Q.
Proof. intros Hx HQ. exists v, h. split; [now apply get_mat_ok | exact HQ]. Qed.

Lemma wp_get x h t (Q : tensor → heap → Prop) :
  h !! x = Some t → Q t h → wp (get x) h Q.
Proof. intros Hx HQ. exists t, h. split; [now apply get_ok | exact HQ]. Qed.

Lemma wp_torch_map g x h t (Q : loc → heap → Prop) :
  h !! x = Some t →
  (∀ l h', extends h h' → h' !! l = Some (tmap g t) → Q l h') →
  wp (torch_map g x) h Q.
Proof.
  intros Hx HQ. apply wp_bind, (wp_get _ _ _ _ Hx). now apply wp_new_tensor.
Qed.

Lemma wp_torch_squeeze x h t (Q : loc → heap → Prop) :
  h !! x = Some t →
  (∀ l h', extends h h' → h' !! l = Some (squeeze_last t) → Q l h') →
  wp (torch_squeeze x) h Q.
Proof.
  intros Hx HQ. apply wp_bind, (wp_get _ _ _ _ Hx). now apply wp_new_tensor.
Qed.

Lemma wp_torch_slice x a b h v (Q : loc → heap → Prop) :
  h !! x = Some (Mat v) →
  (∀ l h', extends h h' → h' !! l = Some (Mat (slice a b v)) → Q l h') →
  wp (torch_slice x a b) h Q.
Proof.
  intros Hx HQ. apply wp_bind, (wp_get_mat _ _ _ _ Hx). now apply wp_new_tensor.
Qed.

Lemma wp_Encoder_call e x b h v (Q : loc → heap → Prop) :
  h !! x = Some (Mat v) →
  (∀ l h', extends h h' → h' !! l = Some (Mat (enc_forward e v b)) → Q l h') →
  wp (Encoder_call e x b) h Q.
Proof.
  intros Hx HQ. apply wp_bind, (wp_get_mat _ _ _ _ Hx). now apply wp_new_tensor.
Qed.

Lemma wp_sigma_of t h tv (Q : loc → heap → Prop) :
  h !! t = Some tv →
  (∀ l h', extends h h' →
           h' !! l = Some (tmap trunc_exp (tmap (λ a, a - 1)%R tv)) → Q l h') →
  wp (sigma_of t) h Q.
Proof.
  intros Ht HQ. apply wp_bind, (wp_torch_map _ _ _ _ _ Ht).
  intros l h1 E1 Hl. apply (wp_torch_map _ _ _ _ _ Hl).
  intros l' h2 E2 Hl'. apply HQ; [| exact Hl']. eapply extends_trans; eassumption.
Qed.

(** ** Shapes *)

Lemma zip_with_shape (f : list R → list R → list R) (ca cb cc : nat) :
  (∀ u v, length u = ca → length v = cb → length (f u v) = cc) →
  ∀ (n : nat) (a b : list (list R)),
    has_shape n ca a → has_shape n cb b → has_shape n cc (zip_with f a b).
Proof.
  intros Hf n a. revert n.
  induction a as [| u a IH]; intros n b [Hna Ha] [Hnb Hb].
  - cbn in *. now split.
  - destruct b as [| v b]; [cbn in *; lia |].
    apply Forall_cons in Ha as [Hu Ha]. apply Forall_cons in Hb as [Hv Hb].
    destruct (IH (length a) b) as [Hlen Hrows];
      [now split | split; [cbn in *; lia | assumption] |].
    split; [cbn in *; lia |]. cbn. constructor; [now apply Hf | assumption].
Qed.

Lemma mat_add_shape n c a b :
  has_shape n c a → has_shape n c b → has_shape n c (mat_add a b).
Proof.
  apply zip_with_shape. intros u v Hu Hv. rewrite length_zip_with. lia.
Qed.

Lemma map_rows_shape (g : list R → list R) (n c c' : nat) m :
  (∀ row, length row = c → length (g row) = c') →
  has_shape n c m → has_shape n c' (map g m).
Proof.
  intros Hg [Hn Hrows]. split; [now rewrite length_map |].
  apply Forall_forall. intros row Hrow.
  apply list_elem_of_In, in_map_iff in Hrow. destruct Hrow as (r0 & <- & Hr0).
  apply Hg. apply (proj1 (Forall_forall _ _) Hrows), list_elem_of_In, Hr0.
Qed.

Lemma map_map_shape (g : R → R) n c m :
  has_shape n c m → has_shape n c (map (map g) m).
Proof. apply map_rows_shape. intros row Hrow. now rewrite length_map. Qed.

Lemma slice_shape n c m (start : nat) (stop : option nat) :
  has_shape n c m →
  has_shape n (match stop with
               | Some e => Nat.min (e - start) (c - start)
               | None => c - start
               end) (slice start stop m).
Proof.
  apply map_rows_shape. intros row Hrow.
  destruct stop as [e |].
  - now rewrite length_take, length_drop, Hrow.
  - now rewrite length_drop, Hrow.
Qed.

Lemma cat3_shape n ca cb cc a b c :
  has_shape n ca a → has_shape n cb b → has_shape n cc c →
  has_shape n (ca + (cb + cc)) (cat_last [a; b; c]).
Proof.
  intros Ha Hb Hc. cbn [cat_last].
  apply (zip_with_shape app ca (cb + cc)); [| exact Ha |].
  - intros u v Hu Hv. rewrite length_app. lia.
  - apply (zip_with_shape app cb cc); [| exact Hb | exact Hc].
    intros u v Hu Hv. rewrite length_app. lia.
Qed.

Lemma affine_length L row (o : nat) :
  length (weight L) = o →
  (∀ bv, bias L = Some bv → length bv = o) →
  length (affine L row) = o.
Proof.
  intros Hw Hb. unfold affine. destruct (bias L) as [bv |].
  - rewrite length_zip_with, length_map, Hw, (Hb bv eq_refl). lia.
  - now rewrite length_map.
Qed.

(** *** The tests of the operations succeed on shapes that fit *)

Lemma has_cols_shape cols n c m :
  has_shape n c m → Forall (λ k, k < c)%nat cols → has_cols cols m = true.
Proof.
  intros [_ Hrows] Hcols. apply forallb_forall. intros row Hrow.
  apply forallb_forall. intros k Hk. apply Nat.ltb_lt.
  rewrite (proj1 (Forall_forall _ _) Hrows row) by now apply list_elem_of_In.
  apply (proj1 (Forall_forall _ _) Hcols k). now apply list_elem_of_In.
Qed.

Lemma same_rows3 n ca cb cc (a b c : list (list R)) :
  has_shape n ca a → has_shape n cb b → has_shape n cc c →
  same_rows [a; b; c] = true.
Proof.
  intros [Ha _] [Hb _] [Hc _]. cbn. rewrite Ha, Hb, Hc, Nat.eqb_refl.
  reflexivity.
Qed.

Lemma broadcast_add_same n c :
  ∀ a b, has_shape n c a → has_shape n c b →
         broadcast_add a b = Some (mat_add a b).
Proof.
  intros a b [Hna Ha] [Hnb Hb]. unfold broadcast_add.
  rewrite Hna, Hnb, Nat.eqb_refl. clear Hna Hnb. revert b Hb.
  induction Ha as [| u a Hu _ IH]; intros b Hb; [reflexivity |].
  destruct Hb as [| v b Hv Hb]; [reflexivity |].
  cbn. unfold row_add at 1. rewrite Hu, Hv, Nat.eqb_refl.
  unfold mat_add in IH. now rewrite (IH b Hb).
Qed.

Lemma Linear_fits_true L n c v :
  has_shape n c v → Forall (λ w, length w = c) (weight L) →
  (∀ bv, bias L = Some bv → length bv = length (weight L)) →
  Linear_fits L v = true.
Proof.
  intros [_ Hrows] Hw Hb. unfold Linear_fits. apply andb_true_iff. split.
  - apply forallb_forall. intros row Hrow. apply forallb_forall. intros w Hin.
    apply Nat.eqb_eq.
    rewrite (proj1 (Forall_forall _ _) Hrows row) by now apply list_elem_of_In.
    apply (proj1 (Forall_forall _ _) Hw w). now apply list_elem_of_In.
  - destruct (bias L) as [bv |]; [| reflexivity].
    apply Nat.eqb_eq. now apply Hb.
Qed.

(** *** Operations that test shapes *)

Lemma wp_torch_add a b h va vb n c (Q : loc → heap → Prop) :
  h !! a = Some (Mat va) → h !! b = Some (Mat vb) →
  has_shape n c va → has_shape n c vb →
  (∀ l h', extends h h' → h' !! l = Some (Mat (mat_add va vb)) → Q l h') →
  wp (torch_add a b) h Q.
Proof.
  intros Ha Hb Sa Sb HQ. apply wp_bind, (wp_get_mat _ _ _ _ Ha).
  apply wp_bind, (wp_get_mat _ _ _ _ Hb).
  rewrite (broadcast_add_same n c va vb Sa Sb). now apply wp_new_tensor.
Qed.

Lemma wp_torch_take_cols x cols h v n c (Q : loc → heap → Prop) :
  h !! x = Some (Mat v) → has_shape n c v → Forall (λ k, k < c)%nat cols →
  (∀ l h', extends h h' → h' !! l = Some (Mat (take_cols cols v)) → Q l h') →
  wp (torch_take_cols x cols) h Q.
Proof.
  intros Hx Sv Hcols HQ. apply wp_bind, (wp_get_mat _ _ _ _ Hx).
  rewrite (has_cols_shape cols n c v Sv Hcols). now apply wp_new_tensor.
Qed.

Lemma wp_torch_channel x k h v n c (Q : loc → heap → Prop) :
  h !! x = Some (Mat v) → has_shape n c v → (k < c)%nat →
  (∀ l h', extends h h' → h' !! l = Some (Vec (channel k v)) → Q l h') →
  wp (torch_channel x k) h Q.
Proof.
  intros Hx Sv Hk HQ. apply wp_bind, (wp_get_mat _ _ _ _ Hx).
  rewrite (has_cols_shape [k] n c v Sv) by (now repeat constructor).
  now apply wp_new_tensor.
Qed.

Lemma wp_torch_cat3 a b c h va vb vc n ca cb cc (Q : loc → heap → Prop) :
  h !! a = Some (Mat va) → h !! b = Some (Mat vb) → h !! c = Some (Mat vc) →
  has_shape n ca va → has_shape n cb vb → has_shape n cc vc →
  (∀ l h', extends h h' → h' !! l = Some (Mat (cat_last [va; vb; vc])) →
           Q l h') →
  wp (torch_cat [a; b; c]) h Q.
Proof.
  intros Ha Hb Hc Sa Sb Sc HQ. apply wp_bind. cbn [get_mats].
  apply wp_bind, (wp_get_mat _ _ _ _ Ha).
  apply wp_bind, wp_bind, (wp_get_mat _ _ _ _ Hb).
  apply wp_bind, wp_bind, (wp_get_mat _ _ _ _ Hc).
  apply wp_bind, wp_ret, wp_ret, wp_ret, wp_ret.
  rewrite (same_rows3 n ca cb cc va vb vc Sa Sb Sc). now apply wp_new_tensor.
Qed.

(** ** MLP.forward *)

Lemma getitem_nat {A} (ms : list A) (i : nat) (m : A) :
  ms !! i = Some m → getitem ms (Z.of_nat i) = Ok m.
Proof.
  intros Hi. pose proof (lookup_lt_Some _ _ _ Hi) as Hlt. unfold getitem.
  replace (Z.of_nat i <? - Z.of_nat (length ms)) with false
    by (symmetry; apply Z.ltb_ge; lia).
  replace (Z.of_nat (length ms) <=? Z.of_nat i) with false
    by (symmetry; apply Z.leb_gt; lia).
  replace (Z.of_nat i <? 0) with false by (symmetry; apply Z.ltb_ge; lia).
  cbn. now rewrite Nat2Z.id, Hi.
Qed.

Lemma Linear_forward_run L x h v n c :
  h !! x = Some (Mat v) → has_shape n c v →
  Forall (λ w, length w = c) (weight L) →
  (∀ bv, bias L = Some bv → length bv = length (weight L)) →
  Linear_forward L x h = (Ok (length h), h ++ [Mat (map (affine L) v)]).
Proof.
  intros Hx Sv Hw Hb. unfold Linear_forward.
  rewrite (bind_ok _ _ _ _ _ (get_mat_ok _ _ _ Hx)).
  now rewrite (Linear_fits_true L n c v Sv Hw Hb).
Qed.

Lemma affine_shape L n c v :
  has_shape n c v →
  (∀ bv, bias L = Some bv → length bv = length (weight L)) →
  has_shape n (length (weight L)) (map (affine L) v).
Proof.
  intros Sv Hb. apply (map_rows_shape _ n c); [| exact Sv].
  intros row _. now apply affine_length.
Qed.

Lemma relu_inplace_snoc h t :
  relu_inplace (length h) (h ++ [t]) = (Ok (length h), h ++ [tmap relu t]).
Proof.
  unfold relu_inplace.
  rewrite (bind_ok _ _ _ _ _ (get_ok _ _ _ (lookup_snoc h t))).
  unfold bind, put, ret. now rewrite insert_snoc.
Qed.

Lemma MLP_cells_cons L L2 ls v :
  MLP_cells (L :: L2 :: ls) v
  = Mat (map (map relu) (map (affine L) v))
      :: MLP_cells (L2 :: ls) (map (map relu) (map (affine L) v)).
Proof. reflexivity. Qed.

Lemma MLP_apply_cons L L2 ls v :
  MLP_apply (L :: L2 :: ls) v
  = MLP_apply (L2 :: ls) (map (map relu) (map (affine L) v)).
Proof. reflexivity. Qed.

Lemma MLP_loop_run self k :
  ∀ i h x v n c,
    MLP_wf self → (i + k = length (net self))%nat →
    layers_fit c (drop i (net self)) → has_shape n c v →
    h !! x = Some (Mat v) →
    MLP_loop self (map Z.of_nat (seq i k)) x h
    = (Ok (MLP_loc (drop i (net self)) x (length h)),
       h ++ MLP_cells (drop i (net self)) v).
Proof.
  induction k as [| k IH]; intros i h x v n c Hwf Hik Hfit Sv Hx.
  - rewrite drop_ge by lia. cbn. now rewrite app_nil_r.
  - destruct (lookup_lt_is_Some_2 (net self) i ltac:(lia)) as [L HL].
    rewrite (drop_S _ _ _ HL) in *. cbn [seq map MLP_loop].
    destruct Hfit as (Hcols & Hbias & Hrest).
    rewrite (bind_ok _ _ _ (L) h);
      [| unfold lift; now rewrite (getitem_nat _ _ _ HL)].
    rewrite (bind_ok _ _ _ _ _ (Linear_forward_run L x h v n c Hx Sv Hcols
                                  Hbias)).
    assert (Hn : num_layers self = Z.of_nat (i + S k)).
    { unfold MLP_wf in Hwf. lia. }
    destruct k as [| k].
    + replace (Z.of_nat i =? num_layers self - 1) with true
        by (symmetry; apply Z.eqb_eq; lia).
      rewrite drop_ge by lia. cbn. unfold ret. f_equal. f_equal. lia.
    + replace (Z.of_nat i =? num_layers self - 1) with false
        by (symmetry; apply Z.eqb_neq; lia).
      rewrite (bind_ok _ _ _ _ _ (relu_inplace_snoc h _)). cbn [tmap].
      rewrite (IH (S i) _ (length h) (map (map relu) (map (affine L) v))
                 n (length (weight L)) Hwf ltac:(lia) Hrest
                 (map_map_shape _ _ _ _ (affine_shape L n c v Sv Hbias))
                 (lookup_snoc h _)).
      destruct (lookup_lt_is_Some_2 (net self) (S i) ltac:(lia)) as [L2 HL2].
      rewrite (drop_S _ _ _ HL2), MLP_cells_cons. unfold MLP_loc.
      rewrite <- app_assoc. cbn [app]. f_equal. f_equal.
      rewrite length_app. cbn [length]. lia.
Qed.

Lemma MLP_forward_run self x h v n c :
  MLP_wf self → layers_fit c (net self) → has_shape n c v →
  h !! x = Some (Mat v) →
  MLP_forward self x h
  = (Ok (MLP_loc (net self) x (length h)), h ++ MLP_cells (net self) v).
Proof.
  intros Hwf Hfit Sv Hx. unfold MLP_forward, range.
  rewrite (MLP_loop_run self (Z.to_nat (num_layers self)) 0%nat h x v n c Hwf);
    [reflexivity | unfold MLP_wf in Hwf; lia | exact Hfit | exact Sv
    | exact Hx].
Qed.

Lemma MLP_cells_length layers : ∀ v, length (MLP_cells layers v) = length layers.
Proof.
  induction layers as [| L ls IH]; intros v; [reflexivity |].
  destruct ls as [| L2 ls]; [reflexivity |].
  rewrite MLP_cells_cons. cbn [length]. now rewrite IH.
Qed.

Lemma MLP_cells_result layers :
  ∀ v (h : heap) (x : loc),
    h !! x = Some (Mat v) →
    (h ++ MLP_cells layers v) !! MLP_loc layers x (length h)
    = Some (Mat (MLP_apply layers v)).
Proof.
  induction layers as [| L ls IH]; intros v h x Hx.
  - cbn. now rewrite app_nil_r.
  - destruct ls as [| L2 ls].
    + cbn. replace (length h + 1 - 1)%nat with (length h) by lia.
      apply lookup_snoc.
    + specialize (IH (map (map relu) (map (affine L) v))
                    (h ++ [Mat (map (map relu) (map (affine L) v))])
                    (length h) (lookup_snoc h _)).
      rewrite MLP_cells_cons, MLP_apply_cons. rewrite <- IH.
      rewrite <- app_assoc. cbn [app]. f_equal.
      unfold MLP_loc. rewrite length_app. cbn [length]. lia.
Qed.

Lemma snoc_of_nonempty {A} (l : list A) : l ≠ [] → ∃ ls a, l = ls ++ [a].
Proof. induction l using rev_ind; [congruence | eauto]. Qed.

Lemma MLP_apply_snoc ls L :
  ∀ v, MLP_apply (ls ++ [L]) v
       = map (affine L)
           (fold_left (λ acc L', map (map relu) (map (affine L') acc)) ls v).
Proof.
  induction ls as [| L' ls IH]; intros v; [reflexivity |].
  cbn [fold_left]. rewrite <- IH.
  destruct ls as [| L'' ls]; [reflexivity |]. apply MLP_apply_cons.
Qed.

Lemma fold_layers_length ls :
  ∀ v : list (list R),
    length (fold_left (λ acc L', map (map relu) (map (affine L') acc)) ls v)
    = length v.
Proof.
  induction ls as [| L ls IH]; intros v; [reflexivity |].
  cbn [fold_left]. now rewrite IH, !length_map.
Qed.

Lemma wp_MLP_forward self x h v n c (Q : loc → heap → Prop) :
  MLP_wf self → layers_fit c (net self) → has_shape n c v →
  h !! x = Some (Mat v) →
  (∀ l h', extends h h' → h' !! l = Some (Mat (MLP_apply (net self) v)) →
           Q l h') →
  wp (MLP_forward self x) h Q.
Proof.
  intros Hwf Hfit Sv Hx HQ. unfold wp.
  rewrite (MLP_forward_run _ _ _ _ n c Hwf Hfit Sv Hx).
  eexists _, _. split; [reflexivity |].
  apply HQ; [apply extends_app | now apply MLP_cells_result].
Qed.

Lemma wp_HashEncoder_forward self x b h v w (Q : loc → heap → Prop) :
  HashEncoder_fits self w → h !! x = Some (Mat v) →
  (∀ l h', extends h h' → h' !! l = Some (Mat (HashEncoder_value self v b)) →
           Q l h') →
  wp (HashEncoder_forward self x b) h Q.
Proof.
  intros (Hwf & c & Henc & Hfit & _) Hx HQ.
  apply wp_bind, (wp_Encoder_call _ _ _ _ _ _ Hx).
  intros l h1 E1 Hl.
  apply (wp_MLP_forward _ _ _ _ (length v) c _ Hwf Hfit (Henc v (Some b)) Hl).
  intros l' h2 E2 Hl'. apply HQ; [| exact Hl']. eapply extends_trans; eassumption.
Qed.

Lemma HashEncoder_value_shape self w n (v : list (list R)) (b : R) :
  HashEncoder_fits self w → length v = n →
  has_shape n w (HashEncoder_value self v b).
Proof.
  intros (_ & c' & Henc & _ & Hout) Hn. unfold HashEncoder_value.
  apply Hout. rewrite <- Hn. apply Henc.
Qed.

(** ** NeRFNetwork *)

(** Facts about a store are carried over to a store that extends it. *)
Ltac carry E :=
  match type of E with
  | extends ?h ?h' =>
      repeat match goal with
             | L : h !! _ = Some _ |- _ =>
                 apply (extends_lookup h h' _ _ E) in L
             end;
      match goal with
      | B : extends ?h0 h |- _ =>
          let B' := fresh "Hext" in
          pose proof (extends_trans h0 h h' B E) as B'; clear B E
      end
  end.

(** What a rule asks of the context: a fact that is there, or a bound on
    column numbers. *)
Ltac side := first [eassumption | solve [repeat constructor] | lia].

(** One call of the body: its rule, the facts it needs from the context,
    and the new object. *)
Ltac step rule :=
  apply wp_bind; eapply rule;
  [ side ..
  | let l := fresh "l" in
    let h := fresh "h" in
    let E := fresh "E" in
    let Hl := fresh "Hl" in
    intros l h E Hl; carry E ].

(** *** Shapes of the values *)

Lemma features_shapes self n (xv : list (list R)) :
  spatial_fits self → length xv = n →
  has_shape n 8 (HashEncoder_value (grid self) xv (bound self)) ∧
  has_shape n 8
    (HashEncoder_value (planeXY self) (take_cols [0; 1]%nat xv) (bound self)) ∧
  has_shape n 8
    (HashEncoder_value (planeYZ self) (take_cols [1; 2]%nat xv) (bound self)) ∧
  has_shape n 8
    (HashEncoder_value (planeXZ self) (take_cols [0; 2]%nat xv) (bound self)).
Proof.
  intros (Wg & Wxy & Wyz & Wxz) Hn.
  assert (Hcols : ∀ cols, length (take_cols cols xv) = n)
    by (intros cols; unfold take_cols; now rewrite length_map).
  split; [| split; [| split]]; apply HashEncoder_value_shape; auto.
Qed.

Lemma f_value_fits self n (xv : list (list R)) :
  spatial_fits self → length xv = n → has_shape n 8 (f_value self xv).
Proof.
  intros Hfit Hn.
  destruct (features_shapes self n xv Hfit Hn) as (Sg & Sxy & Syz & Sxz).
  unfold f_value. now repeat apply mat_add_shape.
Qed.

Lemma diffuse_value_fits self n (xv : list (list R)) :
  spatial_fits self → length xv = n → has_shape n 3 (diffuse_value self xv).
Proof.
  intros Hfit Hn. apply map_map_shape.
  exact (slice_shape _ _ _ 1 (Some 4%nat) (f_value_fits self n xv Hfit Hn)).
Qed.

Lemma f_specular_value_fits self n (xv : list (list R)) :
  spatial_fits self → length xv = n →
  has_shape n 4 (f_specular_value self xv).
Proof.
  intros Hfit Hn. apply map_map_shape.
  exact (slice_shape _ _ _ 4 None (f_value_fits self n xv Hfit Hn)).
Qed.

Lemma specular_value_fits self n (xv dv : list (list R)) :
  spatial_fits self → view_fits self → length xv = n → length dv = n →
  has_shape n 3 (specular_value self xv dv).
Proof.
  intros Hfit (_ & c & Henc & _ & Hout) Hn Hdv. unfold specular_value.
  apply map_map_shape, Hout, cat3_shape.
  - now apply diffuse_value_fits.
  - now apply f_specular_value_fits.
  - rewrite <- Hdv. apply Henc.
Qed.

Lemma color_value_fits self n (xv dv : list (list R)) shading :
  spatial_fits self → view_fits self → length xv = n → length dv = n →
  has_shape n 3 (color_value self xv dv shading).
Proof.
  intros Hfit Hview Hn Hdv. unfold color_value.
  pose proof (diffuse_value_fits self n xv Hfit Hn) as Sd.
  pose proof (specular_value_fits self n xv dv Hfit Hview Hn Hdv) as Ss.
  destruct (String.eqb shading "diffuse"); [exact Sd |].
  destruct (String.eqb shading "specular"); [exact Ss |].
  now apply map_map_shape, mat_add_shape.
Qed.

(** *** The calls *)

Lemma wp_common_forward self x h xv n
    (Q : loc * loc * loc * loc → heap → Prop) :
  spatial_fits self → has_shape n 3 xv → h !! x = Some (Mat xv) →
  (∀ fs h', extends h h' → features_at self xv fs h' → Q fs h') →
  wp (common_forward self x) h Q.
Proof.
  intros (Wg & Wxy & Wyz & Wxz) Sx Hx HQ.
  pose proof (extends_refl h) as Hext. unfold common_forward.
  step wp_HashEncoder_forward.
  step wp_torch_take_cols.
  step wp_HashEncoder_forward.
  step wp_torch_take_cols.
  step wp_HashEncoder_forward.
  step wp_torch_take_cols.
  step wp_HashEncoder_forward.
  apply wp_ret, HQ; [assumption |]. repeat split; assumption.
Qed.

Lemma wp_sum_features self xv fs h n (Q : loc → heap → Prop) :
  spatial_fits self → has_shape n 3 xv → features_at self xv fs h →
  (∀ l h', extends h h' → h' !! l = Some (Mat (f_value self xv)) → Q l h') →
  wp (sum_features fs) h Q.
Proof.
  intros Hfit Sx. destruct fs as [[[a b] c] d]. intros (Ha & Hb & Hc & Hd) HQ.
  destruct (features_shapes self n xv Hfit (proj1 Sx))
    as (Sg & Sxy & Syz & Sxz).
  pose proof (mat_add_shape _ _ _ _ Sg Sxy) as S1.
  pose proof (mat_add_shape _ _ _ _ S1 Syz) as S2.
  pose proof (extends_refl h) as Hext. unfold sum_features.
  step wp_torch_add. step wp_torch_add.
  eapply wp_torch_add; [side .. |].
  intros lf hf E Hlf. carry E. now apply HQ.
Qed.

Lemma wp_forward self x d shading h xv dv n :
  spatial_fits self → view_fits self →
  has_shape n 3 xv → has_shape n 3 dv →
  h !! x = Some (Mat xv) → h !! d = Some (Mat dv) →
  wp (forward self x d shading) h
    (λ r h', extends h h' ∧ forward_post self xv dv shading r h').
Proof.
  intros Hfit Hview Sx Sd Hx Hd.
  pose proof (f_value_fits self n xv Hfit (proj1 Sx)) as Sf.
  pose proof (diffuse_value_fits self n xv Hfit (proj1 Sx)) as Sdiff.
  pose proof (f_specular_value_fits self n xv Hfit (proj1 Sx)) as Sfs.
  pose proof (specular_value_fits self n xv dv Hfit Hview (proj1 Sx)
                (proj1 Sd)) as Sspec.
  destruct Hview as (Wv & c & Henc & Hvfit & Hvout).
  assert (Senc : has_shape n c (enc_forward (view_encoder self) dv None)).
  { rewrite <- (proj1 Sd). apply Henc. }
  pose proof (cat3_shape _ _ _ _ _ _ _ Sdiff Sfs Senc) as Scat.
  pose proof (extends_refl h) as Hext. unfold forward.
  apply wp_bind, (wp_common_forward _ _ _ _ n _ Hfit Sx Hx).
  intros fs hfs E Hfs. carry E.
  apply wp_bind, (wp_sum_features _ _ _ _ n _ Hfit Sx Hfs).
  intros f hf E Hf. carry E. clear Hfs.
  step wp_torch_channel. step wp_sigma_of. step wp_torch_slice.
  step wp_torch_map. step wp_torch_slice. step wp_torch_map.
  step wp_Encoder_call.
  unfold forward_post, color_value.
  destruct (String.eqb shading "diffuse").
  { apply wp_bind, wp_ret, wp_ret. split; [assumption |].
    eexists _, _, _. repeat split; eassumption. }
  apply wp_bind, wp_bind. eapply wp_torch_cat3; [side .. |].
  intros lc hc E Hlc. carry E.
  step wp_MLP_forward. step wp_torch_map.
  destruct (String.eqb shading "specular").
  { apply wp_ret, wp_ret. split; [assumption |].
    eexists _, _, _. repeat split; try eassumption.
    eexists. split; [reflexivity | eassumption]. }
  step wp_torch_add. step wp_torch_map.
  apply wp_ret, wp_ret. split; [assumption |].
  eexists _, _, _. repeat split; try eassumption.
  eexists. split; [reflexivity | eassumption].
Qed.

(** *** density *)

Lemma density_guard_false self x p h :
  full_path self p → density self x p h = density self x (-1) h.
Proof.
  intros Hp. unfold density.
  assert (Hguard :
    (if 0 <=? p
     then encs <- lift (getattr "prop_encoders" (prop_encoders self)) ;;
          ret (p <? Z.of_nat (length encs))
     else ret false) h = (Ok false, h)).
  { destruct Hp as [Hneg | (encs & Hencs & Hlen)].
    - now replace (0 <=? p) with false by (symmetry; apply Z.leb_gt; lia).
    - destruct (0 <=? p); [| reflexivity].
      rewrite Hencs. unfold bind, lift, getattr, ret.
      now replace (p <? Z.of_nat (length encs)) with false
        by (symmetry; apply Z.ltb_ge; lia). }
  now rewrite (bind_ok _ _ _ _ _ Hguard).
Qed.

Lemma wp_density_full self x h xv n :
  spatial_fits self → has_shape n 3 xv → h !! x = Some (Mat xv) →
  wp (density self x (-1)) h
    (λ r h', extends h h' ∧ density_post (Vec (sigma_value self xv)) r h').
Proof.
  intros Hfit Sx Hx. pose proof (extends_refl h) as Hext.
  pose proof (f_value_fits self n xv Hfit (proj1 Sx)) as Sf.
  unfold density. cbn [Z.leb Z.compare]. apply wp_bind, wp_ret.
  apply wp_bind, wp_bind.
  apply (wp_common_forward _ _ _ _ n _ Hfit Sx Hx).
  intros fs hfs E Hfs. carry E.
  apply wp_bind, (wp_sum_features _ _ _ _ n _ Hfit Sx Hfs).
  intros f hf E Hf. carry E.
  clear Hfs. step wp_torch_channel.
  eapply wp_sigma_of; [eassumption |]. intros ls hs E Hls. carry E.
  apply wp_ret. split; [assumption |]. now exists ls.
Qed.

Lemma wp_density_prop self x p h xv encs mlps pe pm :
  prop_encoders self = Some encs → prop_mlp self = Some mlps →
  encs !! p = Some pe → mlps !! p = Some pm → prop_fits pe pm →
  h !! x = Some (Mat xv) →
  wp (density self x (Z.of_nat p)) h
    (λ r h', extends h h' ∧
             density_post (prop_sigma_value pe pm (bound self) xv) r h').
Proof.
  intros Hencs Hmlps Hpe Hpm (Hwf & c & Henc & Hfit) Hx.
  pose proof (extends_refl h) as Hext.
  pose proof (lookup_lt_Some _ _ _ Hpe) as Hlt.
  pose proof (Henc xv (Some (bound self))) as Senc.
  unfold density. rewrite Hencs, Hmlps.
  replace (0 <=? Z.of_nat p) with true by (symmetry; apply Z.leb_le; lia).
  cbn [getattr]. apply wp_bind, wp_bind, wp_lift, wp_ret.
  replace (Z.of_nat p <? Z.of_nat (length encs)) with true
    by (symmetry; apply Z.ltb_lt; lia).
  apply wp_bind, wp_bind, wp_lift.
  rewrite (getitem_nat _ _ _ Hpm). apply wp_bind, wp_lift.
  apply wp_bind, wp_lift.
  rewrite (getitem_nat _ _ _ Hpe). apply wp_bind, wp_lift.
  step wp_Encoder_call. step wp_MLP_forward.
  apply wp_bind. eapply wp_torch_squeeze; [eassumption |].
  intros lq hq E Hlq. carry E.
  eapply wp_sigma_of; [eassumption |]. intros ls hs E Hls. carry E.
  apply wp_ret. split; [assumption |]. now exists ls.
Qed.

Lemma density_no_props self x p h :
  prop_encoders self = None → 0 <= p →
  density self x p h = (Raise (AttributeError "prop_encoders"), h).
Proof.
  intros Hnone Hp. unfold density. rewrite Hnone.
  now replace (0 <=? p) with true by (symmetry; apply Z.leb_le; lia).
Qed.

(** ** Construction *)

Lemma range_length n : length (range n) = Z.to_nat n.
Proof. unfold range. now rewrite length_map, length_seq. Qed.

Lemma MLP_init_wf nn_Linear owner di do dh n b :
  MLP_wf (MLP_init nn_Linear owner di do dh n b).
Proof. unfold MLP_wf, MLP_init. cbn. now rewrite length_map, range_length. Qed.

Lemma range_snoc n : 1 <= n → range n = range (n - 1) ++ [n - 1].
Proof.
  intros Hn. unfold range.
  replace (Z.to_nat n) with (S (Z.to_nat (n - 1))) by lia.
  rewrite seq_S, map_app. cbn. do 2 f_equal. lia.
Qed.

Lemma MLP_init_last nn_Linear owner di do dh n b :
  1 <= n →
  ∃ ls i, net (MLP_init nn_Linear owner di do dh n b)
          = ls ++ [nn_Linear owner (n - 1) i do b].
Proof.
  intros Hn. unfold MLP_init. cbn. rewrite (range_snoc n Hn), map_app. cbn.
  rewrite Z.eqb_refl. eauto.
Qed.

Lemma MLP_init_shape nn_Linear owner di do dh n b (v : list (list R)) :
  Linear_contract nn_Linear → 1 <= n →
  has_shape (length v) (Z.to_nat do)
    (MLP_apply (net (MLP_init nn_Linear owner di do dh n b)) v).
Proof.
  intros HL Hn.
  destruct (MLP_init_last nn_Linear owner di do dh n b Hn) as (ls & i & ->).
  rewrite MLP_apply_snoc. split.
  - now rewrite length_map, fold_layers_length.
  - apply Forall_forall. intros row Hrow.
    apply list_elem_of_In, in_map_iff in Hrow. destruct Hrow as (r0 & <- & _).
    destruct (HL owner (n - 1) i do b) as [[Hw _] Hb].
    apply affine_length; [exact Hw |].
    intros bv Hbv. rewrite Hbv in Hb. tauto.
Qed.

Lemma layers_fit_range nn_Linear owner di do dh n b :
  Linear_contract nn_Linear →
  ∀ (k i : nat),
    (i + k)%nat = Z.to_nat n →
    layers_fit (Z.to_nat (if Z.of_nat i =? 0 then di else dh))
      (map (λ l, nn_Linear owner l
                   (if l =? 0 then di else dh)
                   (if l =? n - 1 then do else dh) b)
         (map Z.of_nat (seq i k))).
Proof.
  intros HL. induction k as [| k IH]; intros i Hik; [exact I |].
  cbn [seq map layers_fit].
  destruct (HL owner (Z.of_nat i) (if Z.of_nat i =? 0 then di else dh)
              (if Z.of_nat i =? n - 1 then do else dh) b) as [[Hrows Hcols] Hb].
  split; [exact Hcols |]. split.
  - intros bv Hbv. rewrite Hbv in Hb. rewrite Hrows. tauto.
  - destruct k as [| k]; [exact I |].
    specialize (IH (S i) ltac:(lia)).
    replace (Z.of_nat (S i) =? 0) with false in IH
      by (symmetry; apply Z.eqb_neq; lia).
    rewrite Hrows.
    replace (Z.of_nat i =? n - 1) with false
      by (symmetry; apply Z.eqb_neq; lia).
    exact IH.
Qed.

Lemma layers_fit_init nn_Linear owner di do dh n b :
  Linear_contract nn_Linear →
  layers_fit (Z.to_nat di) (net (MLP_init nn_Linear owner di do dh n b)).
Proof.
  intros HL.
  exact (layers_fit_range nn_Linear owner di do dh n b HL
           (Z.to_nat n) 0%nat eq_refl).
Qed.

Lemma NeRFNetwork_init_cuda get_encoder nn_Linear o :
  cuda_ray o = true →
  prop_encoders (NeRFNetwork_init get_encoder nn_Linear o) = None ∧
  prop_mlp (NeRFNetwork_init get_encoder nn_Linear o) = None.
Proof.
  intros Hc. unfold NeRFNetwork_init, prop_init.
  destruct (get_encoder "view_encoder" _ _) as [venc vdim].
  destruct (get_encoder _ "hashgrid" _) as [e0 n0].
  destruct (get_encoder _ "hashgrid" _) as [e1 n1].
  cbn. now rewrite Hc.
Qed.

Lemma NeRFNetwork_init_props get_encoder nn_Linear o :
  cuda_ray o = false →
  ∃ pe0 pe1 pm0 pm1,
    prop_encoders (NeRFNetwork_init get_encoder nn_Linear o) = Some [pe0; pe1] ∧
    prop_mlp (NeRFNetwork_init get_encoder nn_Linear o) = Some [pm0; pm1] ∧
    MLP_wf pm0 ∧ MLP_wf pm1.
Proof.
  intros Hc. unfold NeRFNetwork_init, prop_init.
  destruct (get_encoder "view_encoder" _ _) as [venc vdim].
  destruct (get_encoder _ "hashgrid" _) as [e0 n0].
  destruct (get_encoder _ "hashgrid" _) as [e1 n1].
  cbn. rewrite Hc. cbn. eexists _, _, _, _.
  repeat split; apply MLP_init_wf.
Qed.

Lemma NeRFNetwork_init_opt get_encoder nn_Linear o :
  opt (NeRFNetwork_init get_encoder nn_Linear o) = o.
Proof.
  unfold NeRFNetwork_init, prop_init.
  destruct (get_encoder "view_encoder" _ _) as [venc vdim].
  destruct (get_encoder _ "hashgrid" _) as [e0 n0].
  now destruct (get_encoder _ "hashgrid" _) as [e1 n1].
Qed.

Lemma NeRFNetwork_init_fields get_encoder nn_Linear o :
  grid (NeRFNetwork_init get_encoder nn_Linear o)
  = HashEncoder_init get_encoder nn_Linear "grid" 3 2 16 19 512 8 2 64 ∧
  planeXY (NeRFNetwork_init get_encoder nn_Linear o)
  = HashEncoder_init get_encoder nn_Linear "planeXY" 2 2 16 19 2048 8 2 64 ∧
  planeYZ (NeRFNetwork_init get_encoder nn_Linear o)
  = HashEncoder_init get_encoder nn_Linear "planeYZ" 2 2 16 19 2048 8 2 64 ∧
  planeXZ (NeRFNetwork_init get_encoder nn_Linear o)
  = HashEncoder_init get_encoder nn_Linear "planeXZ" 2 2 16 19 2048 8 2 64 ∧
  view_encoder (NeRFNetwork_init get_encoder nn_Linear o)
  = fst (get_encoder "view_encoder" "frequency"
           [ ("input_dim", PInt 3); ("multires", PInt 4) ]) ∧
  view_in_dim (NeRFNetwork_init get_encoder nn_Linear o)
  = snd (get_encoder "view_encoder" "frequency"
           [ ("input_dim", PInt 3); ("multires", PInt 4) ]) ∧
  view_mlp (NeRFNetwork_init get_encoder nn_Linear o)
  = MLP_init nn_Linear "view_mlp"
      (3 + 4 + view_in_dim (NeRFNetwork_init get_encoder nn_Linear o))
      3 16 3 true.
Proof.
  unfold NeRFNetwork_init, prop_init.
  destruct (get_encoder "view_encoder" _ _) as [venc vdim].
  destruct (get_encoder _ "hashgrid" _) as [e0 n0].
  destruct (get_encoder _ "hashgrid" _) as [e1 n1].
  now repeat split.
Qed.

Lemma NeRFNetwork_init_prop_modules get_encoder nn_Linear o :
  cuda_ray o = false →
  ∃ kw0 kw1,
    prop_encoders (NeRFNetwork_init get_encoder nn_Linear o)
    = Some [fst (get_encoder "prop_encoders.0" "hashgrid" kw0);
            fst (get_encoder "prop_encoders.1" "hashgrid" kw1)] ∧
    prop_mlp (NeRFNetwork_init get_encoder nn_Linear o)
    = Some [MLP_init nn_Linear "prop_mlp.0"
              (snd (get_encoder "prop_encoders.0" "hashgrid" kw0)) 1 16 2 false;
            MLP_init nn_Linear "prop_mlp.1"
              (snd (get_encoder "prop_encoders.1" "hashgrid" kw1)) 1 16 2 false].
Proof.
  intros Hc.
  exists [ ("input_dim", PInt 3); ("level_dim", PInt 2);
           ("num_levels", PInt 5); ("log2_hashmap_size", PInt 17);
           ("desired_resolution", PInt 128) ],
         [ ("input_dim", PInt 3); ("level_dim", PInt 2);
           ("num_levels", PInt 5); ("log2_hashmap_size", PInt 17);
           ("desired_resolution", PInt 256) ].
  unfold NeRFNetwork_init, prop_init.
  change ("prop_encoders." +:+ "0") with "prop_encoders.0".
  change ("prop_encoders." +:+ "1") with "prop_encoders.1".
  change ("prop_mlp." +:+ "0") with "prop_mlp.0".
  change ("prop_mlp." +:+ "1") with "prop_mlp.1".
  destruct (get_encoder "view_encoder" _ _) as [venc vdim].
  destruct (get_encoder "prop_encoders.0" _ _) as [e0 n0].
  destruct (get_encoder "prop_encoders.1" _ _) as [e1 n1].
  cbn. rewrite Hc. cbn. split; reflexivity.
Qed.

Lemma HashEncoder_init_fits get_encoder nn_Linear owner a b c d e od nl hd :
  Linear_contract nn_Linear → encoder_contract get_encoder → 1 <= nl →
  HashEncoder_fits
    (HashEncoder_init get_encoder nn_Linear owner a b c d e od nl hd)
    (Z.to_nat od).
Proof.
  intros HL HE Hnl. unfold HashEncoder_fits, HashEncoder_init.
  pose proof (HE (owner +:+ ".encoder") "tiledgrid"
                [ ("input_dim", PInt a); ("level_dim", PInt b);
                  ("num_levels", PInt c); ("log2_hashmap_size", PInt d);
                  ("desired_resolution", PInt e);
                  ("interpolation", PStr "linear") ]) as Henc.
  destruct (get_encoder _ _ _) as [enc k]. cbn in *.
  split; [apply MLP_init_wf |]. exists (Z.to_nat k).
  split; [exact Henc |]. split; [now apply layers_fit_init |].
  intros n v [Hn _]. rewrite <- Hn. now apply MLP_init_shape.
Qed.

Lemma NeRFNetwork_init_spatial_fits get_encoder nn_Linear o :
  Linear_contract nn_Linear → encoder_contract get_encoder →
  spatial_fits (NeRFNetwork_init get_encoder nn_Linear o).
Proof.
  intros HL HE. unfold spatial_fits.
  destruct (NeRFNetwork_init_fields get_encoder nn_Linear o)
    as (-> & -> & -> & -> & _).
  repeat split;
    apply (HashEncoder_init_fits _ _ _ _ _ _ _ _ 8); (assumption || lia).
Qed.

Lemma NeRFNetwork_init_view_fits get_encoder nn_Linear o :
  Linear_contract nn_Linear → encoder_contract get_encoder →
  0 <= view_in_dim (NeRFNetwork_init get_encoder nn_Linear o) →
  view_fits (NeRFNetwork_init get_encoder nn_Linear o).
Proof.
  intros HL HE Hvd. unfold view_fits.
  destruct (NeRFNetwork_init_fields get_encoder nn_Linear o)
    as (_ & _ & _ & _ & Hve & Hvi & Hvm).
  rewrite Hvm, Hve. split; [apply MLP_init_wf |].
  exists (Z.to_nat (view_in_dim (NeRFNetwork_init get_encoder nn_Linear o))).
  split; [rewrite Hvi; apply HE |]. split.
  - replace (3 + (4 + Z.to_nat
                        (view_in_dim
                           (NeRFNetwork_init get_encoder nn_Linear o))))%nat
      with (Z.to_nat
              (3 + 4 + view_in_dim (NeRFNetwork_init get_encoder nn_Linear o)))
      by lia.
    now apply layers_fit_init.
  - intros n v [Hn _]. rewrite <- Hn. apply (MLP_init_shape _ _ _ 3); [| lia].
    exact HL.
Qed.

Lemma NeRFNetwork_init_prop_fits get_encoder nn_Linear o :
  Linear_contract nn_Linear → encoder_contract get_encoder →
  cuda_ray o = false →
  ∃ pe0 pe1 pm0 pm1,
    prop_encoders (NeRFNetwork_init get_encoder nn_Linear o) = Some [pe0; pe1] ∧
    prop_mlp (NeRFNetwork_init get_encoder nn_Linear o) = Some [pm0; pm1] ∧
    prop_fits pe0 pm0 ∧ prop_fits pe1 pm1.
Proof.
  intros HL HE Hc.
  destruct (NeRFNetwork_init_prop_modules get_encoder nn_Linear o Hc)
    as (kw0 & kw1 & Hencs & Hmlps).
  eexists _, _, _, _. split; [exact Hencs |]. split; [exact Hmlps |].
  split; (split; [apply MLP_init_wf |]); eexists;
    (split; [intros v b; apply HE | now apply layers_fit_init]).
Qed.

(** ** Dictionaries of results *)

Lemma value_at_tensor (r : results) key (h : heap) (l : loc) t :
  r !! key = Some (Some l) → h !! l = Some t →
  value_at r key h = Some (Some t).
Proof. intros Hr Hl. unfold value_at. now rewrite Hr, Hl. Qed.

Lemma value_at_none (r : results) key (h : heap) :
  r !! key = Some None → value_at r key h = Some None.
Proof. intros Hr. unfold value_at. now rewrite Hr. Qed.

Lemma density_post_sigma t r h :
  density_post t r h → value_at r "sigma" h = Some (Some t).
Proof.
  intros (ls & -> & Hls). now apply value_at_tensor with ls.
Qed.

Lemma density_post_only_sigma t r h key :
  density_post t r h → key ≠ "sigma" → r !! key = None.
Proof. intros (ls & -> & Hls) Hkey. now apply lookup_singleton_ne. Qed.

Lemma forward_post_sigma self xv dv shading r h :
  forward_post self xv dv shading r h →
  value_at r "sigma" h = Some (Some (Vec (sigma_value self xv))).
Proof.
  intros (ls & lc & sp & -> & Hls & Hlc & Hsp).
  now apply value_at_tensor with ls.
Qed.

Lemma forward_post_color self xv dv shading r h :
  forward_post self xv dv shading r h →
  value_at r "color" h = Some (Some (Mat (color_value self xv dv shading))).
Proof.
  intros (ls & lc & sp & -> & Hls & Hlc & Hsp).
  now apply value_at_tensor with lc.
Qed.

Lemma forward_post_specular self xv dv shading r h :
  forward_post self xv dv shading r h →
  value_at r "specular" h
  = Some (if String.eqb shading "diffuse" then None
          else Some (Mat (specular_value self xv dv))).
Proof.
  intros (ls & lc & sp & -> & Hls & Hlc & Hsp).
  destruct (String.eqb shading "diffuse").
  - subst sp. now apply value_at_none.
  - destruct Hsp as (l & -> & Hl). now apply value_at_tensor with l.
Qed.

(** ** The toy network *)

Lemma toy_Linear_contract : Linear_contract toy_nn_Linear.
Proof.
  intros owner l i o b. unfold toy_nn_Linear. cbn. split.
  - split; [apply length_replicate |].
    apply Forall_replicate, length_replicate.
  - destruct b; [| reflexivity]. split; [reflexivity | apply length_replicate].
Qed.

Lemma toy_encoder_contract : encoder_contract toy_get_encoder.
Proof.
  intros owner kind kw v b. cbn. split; [apply length_map |].
  apply Forall_forall. intros row Hrow.
  apply list_elem_of_In, in_map_iff in Hrow. now destruct Hrow as (r0 & <- & _).
Qed.

Lemma toy_heap_x : toy_heap !! 0%nat = Some (Mat [[0; 0; 0]%R]).
Proof. reflexivity. Qed.

Lemma toy_x_shape : has_shape 1 3 [[0; 0; 0]%R].
Proof. split; [reflexivity | repeat constructor]. Qed.

(** * The claims *)

(** ** density *)

(** C1, as the code has it: in a network constructed with [cuda_ray] true,
    [density(x, proposal)] raises an attribute error (for [prop_encoders])
    for every input [x] and every non-negative [proposal]. *)
Theorem density_cuda_ray_raises get_encoder nn_Linear (o : Opt) (x : loc)
    (p : Z) (h : heap) :
  cuda_ray o = true → 0 <= p →
  density (NeRFNetwork_init get_encoder nn_Linear o) x p h
  = (Raise (AttributeError "prop_encoders"), h).
Proof.
  intros Hc Hp. apply density_no_props; [| exact Hp].
  now apply NeRFNetwork_init_cuda.
Qed.

Lemma density_cuda_ray_raises_witness :
  density (toy_network true) 0%nat 3 toy_heap
  = (Raise (AttributeError "prop_encoders"), toy_heap).
Proof.
  apply (density_cuda_ray_raises toy_get_encoder toy_nn_Linear
           {| cuda_ray := true; opt_bound := 1%R |}); [reflexivity | lia].
Defined.

(** C1 fails as stated: with [cuda_ray] true and the non-default proposal
    [-2], [density] returns a result and raises nothing. *)
Lemma density_cuda_ray_minus2_returns :
  cuda_ray (opt (toy_network true)) = true ∧ -2 ≠ -1 ∧
  ∃ r h', density (toy_network true) 0%nat (-2) toy_heap = (Ok r, h').
Proof.
  split; [reflexivity |]. split; [lia |].
  rewrite (density_guard_false _ _ (-2)) by (left; lia).
  destruct (wp_density_full (toy_network true) 0%nat toy_heap _ 1
              (NeRFNetwork_init_spatial_fits _ _ _ toy_Linear_contract
                 toy_encoder_contract)
              toy_x_shape toy_heap_x) as (r & h' & E & _).
  now exists r, h'.
Qed.

(** C2, as the code has it: for a network built by [__init__] (from
    libraries that make modules of the sizes they are asked for), a valid
    input [x] (an [N, 3] tensor) and an integer [proposal]: when the
    proposal networks exist and [0 <= proposal < len(prop_encoders)],
    [density] returns a dictionary with the one key [sigma], bound to
    [trunc_exp] of (the proposal MLP over the proposal encoder's output,
    squeezed, minus 1); when the proposal is negative, or the proposal
    networks exist and [proposal >= len(prop_encoders)], it returns
    [sigma = trunc_exp(f[..., 0] - 1)] for the sum [f] of the four spatial
    encoder outputs; when the proposal networks do not exist and
    [proposal >= 0], it raises an attribute error. *)
Theorem density_paths get_encoder nn_Linear (o : Opt) (self : NeRFNetwork)
    (x : loc) (p : Z) (h : heap) (xv : list (list R)) (n : nat) :
  self = NeRFNetwork_init get_encoder nn_Linear o →
  Linear_contract nn_Linear → encoder_contract get_encoder →
  h !! x = Some (Mat xv) → has_shape n 3 xv →
  (∀ encs, prop_encoders self = Some encs →
           0 <= p < Z.of_nat (length encs) →
           ∃ mlps pe pm r h',
             prop_mlp self = Some mlps ∧
             encs !! Z.to_nat p = Some pe ∧ mlps !! Z.to_nat p = Some pm ∧
             density self x p h = (Ok r, h') ∧
             density_post (prop_sigma_value pe pm (bound self) xv) r h' ∧
             r !! "color" = None) ∧
  (full_path self p →
   ∃ r h', density self x p h = (Ok r, h') ∧
           density_post (Vec (sigma_value self xv)) r h') ∧
  (prop_encoders self = None → 0 <= p →
   density self x p h = (Raise (AttributeError "prop_encoders"), h)).
Proof.
  intros -> HL HE Hx Sx. split; [| split].
  - intros encs Hencs Hp.
    destruct (cuda_ray o) eqn:Hc.
    { destruct (NeRFNetwork_init_cuda get_encoder nn_Linear o Hc) as [Hn _].
      rewrite Hn in Hencs. discriminate. }
    destruct (NeRFNetwork_init_prop_fits get_encoder nn_Linear o HL HE Hc)
      as (pe0 & pe1 & pm0 & pm1 & Hencs' & Hmlps & F0 & F1).
    rewrite Hencs' in Hencs. injection Hencs as <-. cbn in Hp.
    assert (Hcase : ∃ pe pm, [pe0; pe1] !! Z.to_nat p = Some pe ∧
                             [pm0; pm1] !! Z.to_nat p = Some pm ∧
                             prop_fits pe pm).
    { assert (Hp01 : p = 0 ∨ p = 1) by lia.
      destruct Hp01 as [-> | ->]; eexists _, _;
        (split; [reflexivity |]); (split; [reflexivity |]); assumption. }
    destruct Hcase as (pe & pm & Hpe & Hpm & Hfit).
    destruct (wp_density_prop _ x (Z.to_nat p) h xv _ _ pe pm
                Hencs' Hmlps Hpe Hpm Hfit Hx) as (r & h' & E & _ & Hpost).
    rewrite Z2Nat.id in E by lia.
    exists [pm0; pm1], pe, pm, r, h'. repeat split; try assumption.
    now apply (density_post_only_sigma _ _ _ _ Hpost).
  - intros Hfull. rewrite (density_guard_false _ _ _ _ Hfull).
    destruct (wp_density_full _ x h xv n
                (NeRFNetwork_init_spatial_fits _ _ o HL HE) Sx Hx)
      as (r & h' & E & _ & Hpost).
    now exists r, h'.
  - apply density_no_props.
Qed.

Lemma density_paths_witness :
  (∀ encs, prop_encoders (toy_network false) = Some encs →
           0 <= 1 < Z.of_nat (length encs) →
           ∃ mlps pe pm r h',
             prop_mlp (toy_network false) = Some mlps ∧
             encs !! Z.to_nat 1 = Some pe ∧ mlps !! Z.to_nat 1 = Some pm ∧
             density (toy_network false) 0%nat 1 toy_heap = (Ok r, h') ∧
             density_post
               (prop_sigma_value pe pm (bound (toy_network false))
                  [[0; 0; 0]%R]) r h' ∧
             r !! "color" = None) ∧
  (full_path (toy_network false) 1 →
   ∃ r h', density (toy_network false) 0%nat 1 toy_heap = (Ok r, h') ∧
           density_post (Vec (sigma_value (toy_network false) [[0; 0; 0]%R]))
             r h') ∧
  (prop_encoders (toy_network false) = None → 0 <= 1 →
   density (toy_network false) 0%nat 1 toy_heap
   = (Raise (AttributeError "prop_encoders"), toy_heap)).
Proof.
  apply (density_paths toy_get_encoder toy_nn_Linear
           {| cuda_ray := false; opt_bound := 1%R |} (toy_network false)
           0%nat 1 toy_heap [[0; 0; 0]%R] 1).
  - reflexivity.
  - exact toy_Linear_contract.
  - exact toy_encoder_contract.
  - reflexivity.
  - split; [reflexivity | repeat constructor].
Defined.

(** C2 fails as stated: in a network constructed with [cuda_ray] true,
    proposal [0] is not an index into proposal networks (there are none),
    and [density] raises instead of returning the sigma of the full
    path. *)
Lemma density_cuda_ray_index0_raises :
  prop_encoders (toy_network true) = None ∧
  density (toy_network true) 0%nat 0 toy_heap
  = (Raise (AttributeError "prop_encoders"), toy_heap).
Proof. split; reflexivity. Qed.

(** C8: in a network built by [__init__] (from libraries that keep their
    contracts), for a negative proposal and a valid input [x] (an [N, 3]
    tensor), [density] does not look at [prop_encoders] or [prop_mlp]:
    whatever these attributes are, or when they are missing, the call is the
    same, takes the full path and returns [sigma = trunc_exp(f[..., 0] - 1)]. *)
Theorem density_negative_ignores_props get_encoder nn_Linear (o : Opt)
    (self : NeRFNetwork) (pe : option (list Encoder)) (pm : option (list MLP))
    (x : loc) (p : Z) (h : heap) (xv : list (list R)) (n : nat) :
  self = NeRFNetwork_init get_encoder nn_Linear o →
  Linear_contract nn_Linear → encoder_contract get_encoder →
  p < 0 → h !! x = Some (Mat xv) → has_shape n 3 xv →
  density (set_props self pe pm) x p h = density self x p h ∧
  density (set_props self None None) x p h = density self x p h ∧
  ∃ r h', density (set_props self pe pm) x p h = (Ok r, h') ∧
          density_post (Vec (sigma_value self xv)) r h'.
Proof.
  intros -> HL HE Hp Hx Sx.
  set (self := NeRFNetwork_init get_encoder nn_Linear o).
  assert (Hsame : ∀ a b, density (set_props self a b) x p h = density self x p h).
  { intros a b. unfold density.
    replace (0 <=? p) with false by (symmetry; apply Z.leb_gt; lia).
    reflexivity. }
  split; [apply Hsame |]. split; [apply Hsame |]. rewrite Hsame.
  rewrite (density_guard_false _ _ p) by (left; exact Hp).
  destruct (wp_density_full self x h xv n
              (NeRFNetwork_init_spatial_fits _ _ o HL HE) Sx Hx)
    as (r & h' & E & _ & Hpost).
  now exists r, h'.
Qed.

Lemma density_negative_ignores_props_witness :
  density (set_props (toy_network false) None None) 0%nat (-2) toy_heap
  = density (toy_network false) 0%nat (-2) toy_heap ∧
  density (set_props (toy_network false) None None) 0%nat (-2) toy_heap
  = density (toy_network false) 0%nat (-2) toy_heap ∧
  ∃ r h',
    density (set_props (toy_network false) None None) 0%nat (-2) toy_heap
    = (Ok r, h') ∧
    density_post (Vec (sigma_value (toy_network false) [[0; 0; 0]%R])) r h'.
Proof.
  apply (density_negative_ignores_props toy_get_encoder toy_nn_Linear
           {| cuda_ray := false; opt_bound := 1%R |} (toy_network false)
           None None 0%nat (-2) toy_heap [[0; 0; 0]%R] 1).
  - reflexivity.
  - exact toy_Linear_contract.
  - exact toy_encoder_contract.
  - lia.
  - reflexivity.
  - split; [reflexivity | repeat constructor].
Defined.

(** C9: in a network built by [__init__] with [cuda_ray] false (from libraries
    that keep their contracts) there are exactly two proposal networks, and
    [density(x, proposal)] with [proposal >= 2] on a valid input [x] (an
    [N, 3] tensor) raises nothing: it is the call [density(x, -1)], the full
    spatial path. *)
Theorem density_index_out_of_range get_encoder nn_Linear (o : Opt)
    (self : NeRFNetwork) (x : loc) (p : Z) (h : heap) (xv : list (list R))
    (n : nat) :
  self = NeRFNetwork_init get_encoder nn_Linear o →
  Linear_contract nn_Linear → encoder_contract get_encoder →
  cuda_ray o = false → 2 <= p → h !! x = Some (Mat xv) → has_shape n 3 xv →
  (∃ encs mlps,
     prop_encoders self = Some encs ∧ prop_mlp self = Some mlps ∧
     length encs = 2%nat ∧ length mlps = 2%nat) ∧
  density self x p h = density self x (-1) h ∧
  ∃ r h',
    density self x p h = (Ok r, h') ∧
    density_post (Vec (sigma_value self xv)) r h'.
Proof.
  intros -> HL HE Hc Hp Hx Sx.
  destruct (NeRFNetwork_init_prop_fits get_encoder nn_Linear o HL HE Hc)
    as (pe0 & pe1 & pm0 & pm1 & Hencs & Hmlps & _).
  assert (Hfull : full_path (NeRFNetwork_init get_encoder nn_Linear o) p).
  { right. exists [pe0; pe1]. split; [exact Hencs | cbn; lia]. }
  split; [now exists [pe0; pe1], [pm0; pm1] |].
  split; [now apply density_guard_false |].
  rewrite (density_guard_false _ _ _ _ Hfull).
  destruct (wp_density_full _ x h xv n
              (NeRFNetwork_init_spatial_fits _ _ o HL HE) Sx Hx)
    as (r & h' & E & _ & Hpost).
  now exists r, h'.
Qed.

Lemma density_index_out_of_range_witness :
  (∃ encs mlps,
     prop_encoders (toy_network false) = Some encs ∧
     prop_mlp (toy_network false) = Some mlps ∧
     length encs = 2%nat ∧ length mlps = 2%nat) ∧
  density (toy_network false) 0%nat 2 toy_heap
  = density (toy_network false) 0%nat (-1) toy_heap ∧
  ∃ r h',
    density (toy_network false) 0%nat 2 toy_heap = (Ok r, h') ∧
    density_post (Vec (sigma_value (toy_network false) [[0; 0; 0]%R])) r h'.
Proof.
  apply (density_index_out_of_range toy_get_encoder toy_nn_Linear
           {| cuda_ray := false; opt_bound := 1%R |} (toy_network false)
           0%nat 2 toy_heap [[0; 0; 0]%R] 1).
  - reflexivity.
  - exact toy_Linear_contract.
  - exact toy_encoder_contract.
  - reflexivity.
  - lia.
  - reflexivity.
  - split; [reflexivity | repeat constructor].
Defined.

(** C10: in a network built by [__init__] (from libraries that keep their
    contracts, the view encoder reporting a non-negative number of channels),
    on valid inputs ([x] and [d] both [N, 3]): when the guard of [density] is
    false (the proposal branch is not taken), the sigma of [density(x,
    proposal)] is the sigma of [forward(x, d, shading)], for every direction
    and shading mode: both are [trunc_exp(f[..., 0] - 1)] for the sum [f] of
    the four spatial encoder outputs at [x]. *)
Theorem density_full_path_sigma_eq get_encoder nn_Linear (o : Opt)
    (self : NeRFNetwork) (x d : loc) (shading : string) (p : Z) (h : heap)
    (xv dv : list (list R)) (n : nat) :
  self = NeRFNetwork_init get_encoder nn_Linear o →
  Linear_contract nn_Linear → encoder_contract get_encoder →
  0 <= view_in_dim self →
  h !! x = Some (Mat xv) → h !! d = Some (Mat dv) →
  has_shape n 3 xv → has_shape n 3 dv →
  full_path self p →
  ∃ rd hd rf hf,
    density self x p h = (Ok rd, hd) ∧
    forward self x d shading h = (Ok rf, hf) ∧
    value_at rd "sigma" hd
    = Some (Some (Vec (map trunc_exp
                         (map (λ a, a - 1)%R (channel 0 (f_value self xv)))))) ∧
    value_at rf "sigma" hf = value_at rd "sigma" hd.
Proof.
  intros -> HL HE Hvd Hx Hd Sx Sd Hfull.
  pose proof (NeRFNetwork_init_spatial_fits _ _ o HL HE) as Hfit.
  pose proof (NeRFNetwork_init_view_fits _ _ o HL HE Hvd) as Hview.
  destruct (wp_density_full _ x h xv n Hfit Sx Hx) as (rd & hd & Ed & _ & Hpd).
  destruct (wp_forward _ x d shading h xv dv n Hfit Hview Sx Sd Hx Hd)
    as (rf & hf & Ef & _ & Hpf).
  exists rd, hd, rf, hf.
  rewrite (density_guard_false _ _ _ _ Hfull).
  rewrite (density_post_sigma _ _ _ Hpd), (forward_post_sigma _ _ _ _ _ _ Hpf).
  repeat split; assumption || reflexivity.
Qed.

Lemma density_full_path_sigma_eq_witness :
  ∃ rd hd rf hf,
    density (toy_network false) 0%nat (-1) toy_heap = (Ok rd, hd) ∧
    forward (toy_network false) 0%nat 1%nat "full" toy_heap = (Ok rf, hf) ∧
    value_at rd "sigma" hd
    = Some (Some (Vec (map trunc_exp
                         (map (λ a, a - 1)%R
                            (channel 0 (f_value (toy_network false)
                                          [[0; 0; 0]%R])))))) ∧
    value_at rf "sigma" hf = value_at rd "sigma" hd.
Proof.
  apply (density_full_path_sigma_eq toy_get_encoder toy_nn_Linear
           {| cuda_ray := false; opt_bound := 1%R |} (toy_network false)
           0%nat 1%nat "full" (-1) toy_heap [[0; 0; 0]%R] [[0; 0; 1]%R] 1).
  - reflexivity.
  - exact toy_Linear_contract.
  - exact toy_encoder_contract.
  - cbn. lia.
  - reflexivity.
  - reflexivity.
  - split; [reflexivity | repeat constructor].
  - split; [reflexivity | repeat constructor].
  - left. lia.
Defined.

(** ** forward *)

Lemma map_clamp_id (m : list (list R)) :
  in_unit_range m → map (map (clamp 0 1)) m = m.
Proof.
  intros Hm. induction Hm as [| row m Hrow _ IH]; [reflexivity |].
  cbn [map]. rewrite IH. f_equal.
  induction Hrow as [| a row Ha _ IHrow]; [reflexivity |].
  cbn [map]. now rewrite IHrow, (clamp_id 0 1 a Ha).
Qed.

Lemma eqb_false (s t : string) : s ≠ t → String.eqb s t = false.
Proof. intros Hne. now apply String.eqb_neq. Qed.



(** C3: in a network built by [__init__] (from libraries that keep their
    contracts, the view encoder reporting a non-negative number of channels),
    for valid inputs ([x] and [d] both [N, 3]), [forward(x, d, 'diffuse')]
    returns the diffuse color as color and [None] as specular; [forward(x, d,
    'specular')] returns as color the sigmoid of the view MLP over the
    concatenation (diffuse, f_specular, encoded direction); every other
    shading mode ('full' among them) returns [clamp(specular + diffuse, 0,
    1)], which is [specular + diffuse] itself when that sum lies in [0, 1]
    entry by entry. *)
Theorem forward_shading get_encoder nn_Linear (o : Opt)
    (self : NeRFNetwork) (x d : loc) (h : heap) (xv dv : list (list R))
    (n : nat) :
  self = NeRFNetwork_init get_encoder nn_Linear o →
  Linear_contract nn_Linear → encoder_contract get_encoder →
  0 <= view_in_dim self →
  h !! x = Some (Mat xv) → h !! d = Some (Mat dv) →
  has_shape n 3 xv → has_shape n 3 dv →
  (∃ r h',
     forward self x d "diffuse" h = (Ok r, h') ∧
     value_at r "color" h'
     = Some (Some (Mat (map (map sigmoid)
                          (slice 1 (Some 4%nat) (f_value self xv))))) ∧
     r !! "specular" = Some None) ∧
  (∃ r h',
     forward self x d "specular" h = (Ok r, h') ∧
     value_at r "color" h'
     = Some (Some (Mat
          (map (map sigmoid)
             (MLP_apply (net (view_mlp self))
                (cat_last [diffuse_value self xv; f_specular_value self xv;
                           enc_forward (view_encoder self) dv None]))))) ∧
     value_at r "specular" h' = value_at r "color" h') ∧
  (∀ shading, shading ≠ "diffuse" → shading ≠ "specular" →
     ∃ r h',
       forward self x d shading h = (Ok r, h') ∧
       value_at r "color" h'
       = Some (Some (Mat (map (map (clamp 0 1))
                            (mat_add (specular_value self xv dv)
                               (diffuse_value self xv))))) ∧
       value_at r "specular" h'
       = Some (Some (Mat (specular_value self xv dv))) ∧
       (in_unit_range (mat_add (specular_value self xv dv)
                         (diffuse_value self xv)) →
        value_at r "color" h'
        = Some (Some (Mat (mat_add (specular_value self xv dv)
                             (diffuse_value self xv)))))).
Proof.
  intros -> HL HE Hvd Hx Hd Sx Sd.
  pose proof (NeRFNetwork_init_spatial_fits _ _ o HL HE) as Hfit.
  pose proof (NeRFNetwork_init_view_fits _ _ o HL HE Hvd) as Hview.
  set (self := NeRFNetwork_init get_encoder nn_Linear o) in *.
  split; [| split].
  - destruct (wp_forward self x d "diffuse" h xv dv n Hfit Hview Sx Sd Hx Hd)
      as (r & h' & E & _ & Hpost).
    exists r, h'. split; [exact E |]. split.
    + exact (forward_post_color _ _ _ _ _ _ Hpost).
    + destruct Hpost as (ls & lc & sp & -> & _ & _ & Hsp).
      cbn in Hsp. now subst sp.
  - destruct (wp_forward self x d "specular" h xv dv n Hfit Hview Sx Sd Hx Hd)
      as (r & h' & E & _ & Hpost).
    exists r, h'. split; [exact E |].
    rewrite (forward_post_specular _ _ _ _ _ _ Hpost).
    now rewrite (forward_post_color _ _ _ _ _ _ Hpost).
  - intros shading Hnd Hns.
    destruct (wp_forward self x d shading h xv dv n Hfit Hview Sx Sd Hx Hd)
      as (r & h' & E & _ & Hpost).
    exists r, h'. split; [exact E |].
    rewrite (forward_post_specular _ _ _ _ _ _ Hpost).
    rewrite (forward_post_color _ _ _ _ _ _ Hpost).
    unfold color_value. rewrite (eqb_false _ _ Hnd), (eqb_false _ _ Hns).
    split; [reflexivity |]. split; [reflexivity |].
    intros Hrange. now rewrite (map_clamp_id _ Hrange).
Qed.

Lemma forward_shading_witness :
  (∃ r h',
     forward (toy_network true) 0%nat 1%nat "diffuse" toy_heap = (Ok r, h') ∧
     value_at r "color" h'
     = Some (Some (Mat (map (map sigmoid)
                          (slice 1 (Some 4%nat)
                             (f_value (toy_network true) [[0; 0; 0]%R]))))) ∧
     r !! "specular" = Some None) ∧
  (∃ r h',
     forward (toy_network true) 0%nat 1%nat "specular" toy_heap = (Ok r, h') ∧
     value_at r "color" h'
     = Some (Some (Mat
          (map (map sigmoid)
             (MLP_apply (net (view_mlp (toy_network true)))
                (cat_last [diffuse_value (toy_network true) [[0; 0; 0]%R];
                           f_specular_value (toy_network true) [[0; 0; 0]%R];
                           enc_forward (view_encoder (toy_network true))
                             [[0; 0; 1]%R] None]))))) ∧
     value_at r "specular" h' = value_at r "color" h') ∧
  (∀ shading, shading ≠ "diffuse" → shading ≠ "specular" →
     ∃ r h',
       forward (toy_network true) 0%nat 1%nat shading toy_heap = (Ok r, h') ∧
       value_at r "color" h'
       = Some (Some (Mat (map (map (clamp 0 1))
                            (mat_add
                               (specular_value (toy_network true)
                                  [[0; 0; 0]%R] [[0; 0; 1]%R])
                               (diffuse_value (toy_network true)
                                  [[0; 0; 0]%R]))))) ∧
       value_at r "specular" h'
       = Some (Some (Mat (specular_value (toy_network true) [[0; 0; 0]%R]
                            [[0; 0; 1]%R]))) ∧
       (in_unit_range
          (mat_add
             (specular_value (toy_network true) [[0; 0; 0]%R] [[0; 0; 1]%R])
             (diffuse_value (toy_network true) [[0; 0; 0]%R])) →
        value_at r "color" h'
        = Some (Some (Mat (mat_add
                             (specular_value (toy_network true)
                                [[0; 0; 0]%R] [[0; 0; 1]%R])
                             (diffuse_value (toy_network true)
                                [[0; 0; 0]%R])))))).
Proof.
  apply (forward_shading toy_get_encoder toy_nn_Linear
           {| cuda_ray := true; opt_bound := 1%R |} (toy_network true)
           0%nat 1%nat toy_heap [[0; 0; 0]%R] [[0; 0; 1]%R] 1).
  - reflexivity.
  - exact toy_Linear_contract.
  - exact toy_encoder_contract.
  - cbn. lia.
  - reflexivity.
  - reflexivity.
  - split; [reflexivity | repeat constructor].
  - split; [reflexivity | repeat constructor].
Defined.

Lemma forward_post_extends self xv dv shading r (h h' : heap) :
  extends h h' → forward_post self xv dv shading r h →
  forward_post self xv dv shading r h'.
Proof.
  intros E (ls & lc & sp & Hr & Hls & Hlc & Hsp).
  exists ls, lc, sp. repeat split; try assumption.
  - now apply (extends_lookup h h').
  - now apply (extends_lookup h h').
  - destruct (String.eqb shading "diffuse"); [assumption |].
    destruct Hsp as (l & Hsp & Hl). exists l.
    split; [assumption | now apply (extends_lookup h h')].
Qed.

(** The values of a result of [forward] are those of the network and of
    the two inputs, whatever the objects are. *)
Lemma forward_post_value self xv dv shading r h key :
  forward_post self xv dv shading r h →
  value_at r key h
  = if decide (key = "sigma") then Some (Some (Vec (sigma_value self xv)))
    else if decide (key = "color")
         then Some (Some (Mat (color_value self xv dv shading)))
    else if decide (key = "specular")
         then Some (if String.eqb shading "diffuse" then None
                    else Some (Mat (specular_value self xv dv)))
    else None.
Proof.
  intros Hpost.
  destruct (decide (key = "sigma")) as [-> | Hs];
    [exact (forward_post_sigma _ _ _ _ _ _ Hpost) |].
  destruct (decide (key = "color")) as [-> | Hc];
    [exact (forward_post_color _ _ _ _ _ _ Hpost) |].
  destruct (decide (key = "specular")) as [-> | Hp];
    [exact (forward_post_specular _ _ _ _ _ _ Hpost) |].
  destruct Hpost as (ls & lc & sp & -> & _). unfold value_at.
  rewrite lookup_insert_ne by congruence.
  rewrite lookup_insert_ne by congruence.
  now rewrite lookup_singleton_ne by congruence.
Qed.

Lemma features_at_tensors self xv fs h :
  features_at self xv fs h →
  tensors_at fs h
  = (Some (Mat (HashEncoder_value (grid self) xv (bound self))),
     Some (Mat (HashEncoder_value (planeXY self) (take_cols [0; 1]%nat xv)
                  (bound self))),
     Some (Mat (HashEncoder_value (planeYZ self) (take_cols [1; 2]%nat xv)
                  (bound self))),
     Some (Mat (HashEncoder_value (planeXZ self) (take_cols [0; 2]%nat xv)
                  (bound self)))).
Proof.
  destruct fs as [[[a b] c] e]. intros (Ha & Hb & Hc & He).
  unfold tensors_at. now rewrite Ha, Hb, Hc, He.
Qed.

Lemma features_at_extends self xv fs (h h' : heap) :
  extends h h' → features_at self xv fs h → features_at self xv fs h'.
Proof.
  destruct fs as [[[a b] c] e]. intros E (Ha & Hb & Hc & He).
  repeat split; now apply (extends_lookup h h').
Qed.

(** C7: in a network built by [__init__] (from libraries that keep their
    contracts, the view encoder reporting a non-negative number of channels),
    with the parameters fixed and valid inputs ([x] and [d] both [N, 3]): a
    second [forward] on the same [(x, d, shading)], run after the first,
    returns the same sigma, color and specular values (the three keys are
    bound in both results), leaves the results of the first call and the two
    inputs as they were; the same holds of the four feature tensors of
    [common_forward]. *)
Theorem forward_deterministic get_encoder nn_Linear (o : Opt)
    (self : NeRFNetwork) (x d : loc) (shading : string) (h : heap)
    (xv dv : list (list R)) (n : nat) :
  self = NeRFNetwork_init get_encoder nn_Linear o →
  Linear_contract nn_Linear → encoder_contract get_encoder →
  0 <= view_in_dim self →
  h !! x = Some (Mat xv) → h !! d = Some (Mat dv) →
  has_shape n 3 xv → has_shape n 3 dv →
  (∃ r1 h1 r2 h2,
     forward self x d shading h = (Ok r1, h1) ∧
     forward self x d shading h1 = (Ok r2, h2) ∧
     (∃ s c sp,
        value_at r1 "sigma" h1 = Some (Some (Vec s)) ∧
        value_at r1 "color" h1 = Some (Some (Mat c)) ∧
        value_at r1 "specular" h1 = Some sp ∧
        value_at r2 "sigma" h2 = Some (Some (Vec s)) ∧
        value_at r2 "color" h2 = Some (Some (Mat c)) ∧
        value_at r2 "specular" h2 = Some sp) ∧
     (∀ key, value_at r2 key h2 = value_at r1 key h1) ∧
     (∀ key, value_at r1 key h2 = value_at r1 key h1) ∧
     h2 !! x = h !! x ∧ h2 !! d = h !! d) ∧
  (∃ fs1 h1 fs2 h2,
     common_forward self x h = (Ok fs1, h1) ∧
     common_forward self x h1 = (Ok fs2, h2) ∧
     (∃ a b c e, tensors_at fs1 h1
                 = (Some (Mat a), Some (Mat b), Some (Mat c), Some (Mat e))) ∧
     tensors_at fs2 h2 = tensors_at fs1 h1 ∧
     tensors_at fs1 h2 = tensors_at fs1 h1 ∧
     h2 !! x = h !! x).
Proof.
  intros -> HL HE Hvd Hx Hd Sx Sd.
  pose proof (NeRFNetwork_init_spatial_fits _ _ o HL HE) as Hfit.
  pose proof (NeRFNetwork_init_view_fits _ _ o HL HE Hvd) as Hview.
  set (self := NeRFNetwork_init get_encoder nn_Linear o) in *.
  split.
  - destruct (wp_forward self x d shading h xv dv n Hfit Hview Sx Sd Hx Hd)
      as (r1 & h1 & E1 & X1 & P1).
    destruct (wp_forward self x d shading h1 xv dv n Hfit Hview Sx Sd
                (extends_lookup _ _ _ _ X1 Hx) (extends_lookup _ _ _ _ X1 Hd))
      as (r2 & h2 & E2 & X2 & P2).
    pose proof (extends_trans _ _ _ X1 X2) as X.
    exists r1, h1, r2, h2.
    split; [exact E1 |]. split; [exact E2 |]. split; [| split; [| split]].
    + eexists _, _, _.
      rewrite (forward_post_sigma _ _ _ _ _ _ P1),
        (forward_post_color _ _ _ _ _ _ P1),
        (forward_post_specular _ _ _ _ _ _ P1),
        (forward_post_sigma _ _ _ _ _ _ P2),
        (forward_post_color _ _ _ _ _ _ P2),
        (forward_post_specular _ _ _ _ _ _ P2).
      repeat split; reflexivity.
    + intros key. now rewrite (forward_post_value _ _ _ _ _ _ key P2),
        (forward_post_value _ _ _ _ _ _ key P1).
    + intros key.
      rewrite (forward_post_value _ _ _ _ _ _ key
                 (forward_post_extends _ _ _ _ _ _ _ X2 P1)).
      now rewrite (forward_post_value _ _ _ _ _ _ key P1).
    + split.
      * now rewrite Hx, (extends_lookup _ _ _ _ X Hx).
      * now rewrite Hd, (extends_lookup _ _ _ _ X Hd).
  - destruct (wp_common_forward self x h xv n
                (λ fs h', extends h h' ∧ features_at self xv fs h') Hfit Sx Hx)
      as (fs1 & h1 & E1 & X1 & P1); [now split |].
    destruct (wp_common_forward self x h1 xv n
                (λ fs h', extends h1 h' ∧ features_at self xv fs h') Hfit Sx
                (extends_lookup _ _ _ _ X1 Hx))
      as (fs2 & h2 & E2 & X2 & P2); [now split |].
    exists fs1, h1, fs2, h2.
    split; [exact E1 |]. split; [exact E2 |]. split; [| split; [| split]].
    + eexists _, _, _, _. exact (features_at_tensors _ _ _ _ P1).
    + now rewrite (features_at_tensors _ _ _ _ P2),
        (features_at_tensors _ _ _ _ P1).
    + rewrite (features_at_tensors _ _ _ _
                 (features_at_extends _ _ _ _ _ X2 P1)).
      now rewrite (features_at_tensors _ _ _ _ P1).
    + rewrite Hx. apply (extends_lookup h h2); [| exact Hx].
      eapply extends_trans; eassumption.
Qed.

Lemma forward_deterministic_witness :
  (∃ r1 h1 r2 h2,
     forward (toy_network true) 0%nat 1%nat "full" toy_heap = (Ok r1, h1) ∧
     forward (toy_network true) 0%nat 1%nat "full" h1 = (Ok r2, h2) ∧
     (∃ s c sp,
        value_at r1 "sigma" h1 = Some (Some (Vec s)) ∧
        value_at r1 "color" h1 = Some (Some (Mat c)) ∧
        value_at r1 "specular" h1 = Some sp ∧
        value_at r2 "sigma" h2 = Some (Some (Vec s)) ∧
        value_at r2 "color" h2 = Some (Some (Mat c)) ∧
        value_at r2 "specular" h2 = Some sp) ∧
     (∀ key, value_at r2 key h2 = value_at r1 key h1) ∧
     (∀ key, value_at r1 key h2 = value_at r1 key h1) ∧
     h2 !! 0%nat = toy_heap !! 0%nat ∧ h2 !! 1%nat = toy_heap !! 1%nat) ∧
  (∃ fs1 h1 fs2 h2,
     common_forward (toy_network true) 0%nat toy_heap = (Ok fs1, h1) ∧
     common_forward (toy_network true) 0%nat h1 = (Ok fs2, h2) ∧
     (∃ a b c e, tensors_at fs1 h1
                 = (Some (Mat a), Some (Mat b), Some (Mat c), Some (Mat e))) ∧
     tensors_at fs2 h2 = tensors_at fs1 h1 ∧
     tensors_at fs1 h2 = tensors_at fs1 h1 ∧
     h2 !! 0%nat = toy_heap !! 0%nat).
Proof.
  apply (forward_deterministic toy_get_encoder toy_nn_Linear
           {| cuda_ray := true; opt_bound := 1%R |} (toy_network true)
           0%nat 1%nat "full" toy_heap [[0; 0; 0]%R] [[0; 0; 1]%R] 1).
  - reflexivity.
  - exact toy_Linear_contract.
  - exact toy_encoder_contract.
  - cbn. lia.
  - reflexivity.
  - reflexivity.
  - split; [reflexivity | repeat constructor].
  - split; [reflexivity | repeat constructor].
Defined.

(** ** get_params *)

(** C5: [get_params(lr)] returns a list of parameter groups, each with
    learning rate [lr]: first the groups of [grid], [planeXY], [planeYZ],
    [planeXZ] and [view_mlp], in every network; after them the groups of
    the proposal encoders and of the proposal MLPs, if and only if
    [cuda_ray] was false at construction. *)
Theorem get_params_groups get_encoder nn_Linear (o : Opt) (rate : R) :
  ∃ gs,
    get_params (NeRFNetwork_init get_encoder nn_Linear o) rate = Ok gs ∧
    Forall (λ g, lr g = rate) gs ∧
    take 5 gs
    = [ group (HashEncoder_parameters
                 (grid (NeRFNetwork_init get_encoder nn_Linear o))) rate;
        group (HashEncoder_parameters
                 (planeXY (NeRFNetwork_init get_encoder nn_Linear o))) rate;
        group (HashEncoder_parameters
                 (planeYZ (NeRFNetwork_init get_encoder nn_Linear o))) rate;
        group (HashEncoder_parameters
                 (planeXZ (NeRFNetwork_init get_encoder nn_Linear o))) rate;
        group (MLP_parameters
                 (view_mlp (NeRFNetwork_init get_encoder nn_Linear o))) rate ] ∧
    (cuda_ray o = true → drop 5 gs = []) ∧
    (cuda_ray o = false →
     ∃ encs mlps,
       prop_encoders (NeRFNetwork_init get_encoder nn_Linear o) = Some encs ∧
       prop_mlp (NeRFNetwork_init get_encoder nn_Linear o) = Some mlps ∧
       drop 5 gs = [ group (flat_map enc_parameters encs) rate;
                     group (flat_map MLP_parameters mlps) rate ]) ∧
    (drop 5 gs ≠ [] ↔ cuda_ray o = false).
Proof.
  unfold get_params. rewrite NeRFNetwork_init_opt.
  destruct (cuda_ray o) eqn:Hc.
  - eexists. split; [reflexivity |]. cbn.
    split; [repeat constructor |]. split; [reflexivity |].
    split; [reflexivity |]. split; [discriminate |].
    split; [congruence | discriminate].
  - destruct (NeRFNetwork_init_props get_encoder nn_Linear o Hc)
      as (pe0 & pe1 & pm0 & pm1 & Hencs & Hmlps & _).
    rewrite Hencs, Hmlps. eexists. split; [reflexivity |]. cbn.
    split; [repeat constructor |]. split; [reflexivity |].
    split; [discriminate |].
    split; [intros _; now exists [pe0; pe1], [pm0; pm1] |].
    split; [reflexivity | discriminate].
Qed.

(** ** MLP *)

(** C6: for an MLP built by [__init__] with [num_layers >= 1] (from an
    [nn.Linear] that makes layers of the sizes it is asked for) and an
    input of [dim_in] channels, [MLP.forward(x)] applies exactly
    [num_layers] linear transforms, one new tensor each, with a ReLU after
    every layer except the last; with [num_layers = 1] it is the one
    linear transform and no activation. *)
Theorem MLP_forward_layers nn_Linear (owner : string) (di do dh n : Z)
    (b : bool) (x : loc) (h : heap) (xv : list (list R)) (rows : nat) :
  Linear_contract nn_Linear → 1 <= n →
  h !! x = Some (Mat xv) → has_shape rows (Z.to_nat di) xv →
  ∃ ls L ts l,
    net (MLP_init nn_Linear owner di do dh n b) = ls ++ [L] ∧
    Z.of_nat (length (ls ++ [L])) = n ∧
    MLP_forward (MLP_init nn_Linear owner di do dh n b) x h = (Ok l, h ++ ts) ∧
    Z.of_nat (length ts) = n ∧
    (h ++ ts) !! l
    = Some (Mat (map (affine L)
                   (fold_left
                      (λ acc L', map (map relu) (map (affine L') acc)) ls xv))) ∧
    (h ++ ts) !! x = Some (Mat xv) ∧
    (n = 1 → ls = [] ∧ (h ++ ts) !! l = Some (Mat (map (affine L) xv))).
Proof.
  intros HL Hn Hx Sx.
  pose proof (MLP_init_wf nn_Linear owner di do dh n b) as Hwf.
  pose proof (layers_fit_init nn_Linear owner di do dh n b HL) as Hfit.
  set (self := MLP_init nn_Linear owner di do dh n b) in *.
  assert (Hlen : Z.of_nat (length (net self)) = n).
  { unfold MLP_wf in Hwf. rewrite Hwf. cbn. lia. }
  destruct (snoc_of_nonempty (net self)) as (ls & L & Hnet).
  { intros Hnil. rewrite Hnil in Hlen. cbn in Hlen. lia. }
  exists ls, L, (MLP_cells (net self) xv), (MLP_loc (net self) x (length h)).
  pose proof (MLP_cells_result (net self) xv h x Hx) as Hres.
  rewrite Hnet in Hres at 3. rewrite MLP_apply_snoc in Hres.
  rewrite Hnet in Hlen.
  split; [exact Hnet |]. split; [exact Hlen |].
  split; [now apply (MLP_forward_run _ _ _ _ rows (Z.to_nat di)) |].
  split; [rewrite MLP_cells_length; now rewrite Hnet |].
  split; [exact Hres |].
  split; [now apply lookup_app_l_Some |].
  intros ->. rewrite length_app in Hlen. cbn in Hlen.
  destruct ls; [now split | cbn in Hlen; lia].
Qed.

Lemma MLP_forward_layers_witness :
  ∃ ls L ts l,
    net (MLP_init toy_nn_Linear "mlp" 3 1 16 2 false) = ls ++ [L] ∧
    Z.of_nat (length (ls ++ [L])) = 2 ∧
    MLP_forward (MLP_init toy_nn_Linear "mlp" 3 1 16 2 false) 0%nat toy_heap
    = (Ok l, toy_heap ++ ts) ∧
    Z.of_nat (length ts) = 2 ∧
    (toy_heap ++ ts) !! l
    = Some (Mat (map (affine L)
                   (fold_left
                      (λ acc L', map (map relu) (map (affine L') acc)) ls
                      [[0; 0; 0]%R]))) ∧
    (toy_heap ++ ts) !! 0%nat = Some (Mat [[0; 0; 0]%R]) ∧
    (2 = 1 → ls = [] ∧
             (toy_heap ++ ts) !! l = Some (Mat (map (affine L) [[0; 0; 0]%R]))).
Proof.
  apply (MLP_forward_layers toy_nn_Linear "mlp" 3 1 16 2 false 0%nat
           toy_heap [[0; 0; 0]%R] 1).
  - exact toy_Linear_contract.
  - lia.
  - reflexivity.
  - split; [reflexivity | repeat constructor].
Defined.

(** ** The toy network, evaluated

    All weights of the toy network are zero: every feature is 0, diffuse
    and specular are 1/2 in every channel, and their sum is in range. *)

Lemma dot_zeros (row : list R) : ∀ n, dot row (replicate n 0%R) = 0%R.
Proof.
  induction row as [| a row IH]; intros [| n]; try reflexivity.
  unfold dot in *. cbn. rewrite IH. lra.
Qed.

Lemma map_replicate {A B} (g : A → B) (a : A) (n : nat) :
  map g (replicate n a) = replicate n (g a).
Proof. induction n as [| n IH]; [reflexivity |]. cbn. now rewrite IH. Qed.

Lemma zip_replicate_0 (n : nat) :
  zip_with Rplus (replicate n 0%R) (replicate n 0%R) = replicate n 0%R.
Proof.
  induction n as [| n IH]; [reflexivity |]. cbn. rewrite IH. f_equal. lra.
Qed.

Lemma affine_toy owner l i o b row :
  affine (toy_nn_Linear owner l i o b) row = replicate (Z.to_nat o) 0%R.
Proof.
  unfold affine, toy_nn_Linear. cbn. rewrite map_replicate, dot_zeros.
  destruct b; [apply zip_replicate_0 | reflexivity].
Qed.

Lemma MLP_apply_toy ls owner l i o b (v : list (list R)) :
  length v = 1%nat →
  MLP_apply (ls ++ [toy_nn_Linear owner l i o b]) v
  = [replicate (Z.to_nat o) 0%R].
Proof.
  intros Hv. rewrite MLP_apply_snoc.
  assert (Hlen : ∀ w : list (list R),
            length w = 1%nat
            → length (fold_left
                        (λ acc L', map (map relu) (map (affine L') acc)) ls w)
              = 1%nat).
  { induction ls as [| L' ls IH]; intros w Hw; [exact Hw |].
    cbn [fold_left]. apply IH. now rewrite !length_map. }
  specialize (Hlen v Hv).
  destruct (fold_left _ ls v) as [| row [| row' rest]]; try discriminate.
  cbn. now rewrite affine_toy.
Qed.

Lemma toy_HashEncoder_value c (sel : NeRFNetwork → HashEncoder) v :
  sel = grid ∨ sel = planeXY ∨ sel = planeYZ ∨ sel = planeXZ →
  length v = 1%nat →
  HashEncoder_value (sel (toy_network c)) v 1 = [replicate 8 0%R].
Proof.
  intros Hsel Hv. unfold HashEncoder_value.
  destruct Hsel as [-> | [-> | [-> | ->]]];
    apply (MLP_apply_toy [_] _ 1 64 8 false); cbn; now rewrite length_map.
Qed.

Lemma toy_f_value c :
  f_value (toy_network c) [[0; 0; 0]%R] = [replicate 8 (0 + 0 + 0 + 0)%R].
Proof.
  unfold f_value.
  change (bound (toy_network c)) with 1%R.
  rewrite !toy_HashEncoder_value by (auto || reflexivity). reflexivity.
Qed.

Lemma toy_specular_value c :
  specular_value (toy_network c) [[0; 0; 0]%R] [[0; 0; 1]%R]
  = [replicate 3 (sigmoid 0)].
Proof.
  unfold specular_value.
  change (net (view_mlp (toy_network c)))
    with ([toy_nn_Linear "view_mlp" 0 (3 + 4 + 2) 16 true;
           toy_nn_Linear "view_mlp" 1 16 16 true]
            ++ [toy_nn_Linear "view_mlp" 2 16 3 true]).
  rewrite MLP_apply_toy; [reflexivity |].
  unfold diffuse_value, f_specular_value. rewrite toy_f_value. reflexivity.
Qed.

(** In the toy network the sum [specular + diffuse] is 1 in every
    channel, so the full shading returns it unclamped. *)
Lemma toy_full_sum_in_unit_range c :
  in_unit_range
    (mat_add (specular_value (toy_network c) [[0; 0; 0]%R] [[0; 0; 1]%R])
       (diffuse_value (toy_network c) [[0; 0; 0]%R])).
Proof.
  rewrite toy_specular_value. unfold diffuse_value. rewrite toy_f_value.
  cbn. replace (0 + 0 + 0 + 0)%R with 0%R by lra. rewrite sigmoid_0.
  repeat constructor; lra.
Qed.

(** * Further properties of the code *)

(** ** MLP *)

(** An MLP constructed with [num_layers <= 0] has no layer: [forward]
    returns the very object it is given and leaves the store as it is,
    whatever that object is. *)
Theorem MLP_forward_no_layers nn_Linear (owner : string) (di do dh n : Z)
    (b : bool) (x : loc) (h : heap) :
  n <= 0 →
  net (MLP_init nn_Linear owner di do dh n b) = [] ∧
  MLP_forward (MLP_init nn_Linear owner di do dh n b) x h = (Ok x, h).
Proof.
  intros Hn. unfold MLP_forward, MLP_init, range. cbn.
  replace (Z.to_nat n) with 0%nat by lia. now split.
Qed.

Lemma MLP_forward_no_layers_witness :
  net (MLP_init toy_nn_Linear "m" 3 1 16 0 false) = [] ∧
  MLP_forward (MLP_init toy_nn_Linear "m" 3 1 16 0 false) 5%nat toy_heap
  = (Ok 5%nat, toy_heap).
Proof.
  apply (MLP_forward_no_layers toy_nn_Linear "m" 3 1 16 0 false 5%nat
           toy_heap). lia.
Defined.

(** When [nn.Linear] makes layers of the sizes it is asked for, an MLP
    constructed with [num_layers >= 1] maps an [N, dim_in] tensor to a new
    [N, dim_out] tensor, whatever the hidden size is. *)
Theorem MLP_forward_shape nn_Linear (owner : string) (di do dh n : Z)
    (b : bool) (x : loc) (h : heap) (xv : list (list R)) (rows : nat) :
  Linear_contract nn_Linear → 1 <= n →
  h !! x = Some (Mat xv) → has_shape rows (Z.to_nat di) xv →
  ∃ l h' m,
    MLP_forward (MLP_init nn_Linear owner di do dh n b) x h = (Ok l, h') ∧
    h' !! l = Some (Mat m) ∧
    has_shape rows (Z.to_nat do) m.
Proof.
  intros HL Hn Hx Sx.
  destruct (wp_MLP_forward (MLP_init nn_Linear owner di do dh n b) x h xv
              rows (Z.to_nat di)
              (λ l h', h' !! l
                       = Some (Mat (MLP_apply
                                      (net (MLP_init nn_Linear owner di do dh
                                              n b)) xv)))
              (MLP_init_wf _ _ _ _ _ _ _)
              (layers_fit_init _ _ _ _ _ _ _ HL) Sx Hx)
    as (l & h' & E & Hl); [auto |].
  exists l, h', (MLP_apply (net (MLP_init nn_Linear owner di do dh n b)) xv).
  split; [exact E |]. split; [exact Hl |].
  rewrite <- (proj1 Sx). now apply MLP_init_shape.
Qed.

Lemma MLP_forward_shape_witness :
  ∃ l h' m,
    MLP_forward (MLP_init toy_nn_Linear "mlp" 3 1 16 2 false) 0%nat
      toy_heap = (Ok l, h') ∧
    h' !! l = Some (Mat m) ∧
    has_shape 1 (Z.to_nat 1) m.
Proof.
  apply (MLP_forward_shape toy_nn_Linear "mlp" 3 1 16 2 false 0%nat
           toy_heap [[0; 0; 0]%R] 1).
  - exact toy_Linear_contract.
  - lia.
  - reflexivity.
  - split; [reflexivity | repeat constructor].
Defined.

(** ** HashEncoder *)

(** In a [HashEncoder] built by [__init__] with at least one layer, from
    libraries that keep their contracts, [forward(x, bound)] returns a
    tensor that holds the MLP of the encoding of [x], the bound being
    handed to the encoder; the tensors that were in the store, [x] among
    them, are as before, although the MLP applies its ReLU in place. *)
Theorem HashEncoder_forward_value get_encoder nn_Linear (owner : string)
    (a b c d e od nl hd : Z) (self : HashEncoder) (x : loc) (bd : R)
    (h : heap) (xv : list (list R)) :
  self = HashEncoder_init get_encoder nn_Linear owner a b c d e od nl hd →
  Linear_contract nn_Linear → encoder_contract get_encoder → 1 <= nl →
  h !! x = Some (Mat xv) →
  ∃ l h',
    HashEncoder_forward self x bd h = (Ok l, h') ∧
    h' !! l
    = Some (Mat (MLP_apply (net (mlp self))
                   (enc_forward (encoder self) xv (Some bd)))) ∧
    (∀ l0 t, h !! l0 = Some t → h' !! l0 = Some t).
Proof.
  intros -> HL HE Hnl Hx.
  destruct (wp_HashEncoder_forward _ x bd h xv (Z.to_nat od)
              (λ l h', extends h h' ∧
                       h' !! l = Some (Mat (HashEncoder_value
                                              (HashEncoder_init get_encoder
                                                 nn_Linear owner a b c d e od
                                                 nl hd) xv bd)))
              (HashEncoder_init_fits _ _ owner a b c d e od nl hd HL HE Hnl)
              Hx) as (l & h' & E & X & Hl); [auto |].
  exists l, h'. split; [exact E |]. split; [exact Hl |].
  intros l0 t. apply extends_lookup, X.
Qed.

Lemma HashEncoder_forward_value_witness :
  ∃ l h',
    HashEncoder_forward
      (HashEncoder_init toy_get_encoder toy_nn_Linear "grid"
         3 2 16 19 512 8 2 64) 0%nat 1 toy_heap = (Ok l, h') ∧
    h' !! l
    = Some (Mat (MLP_apply
                   (net (mlp (HashEncoder_init toy_get_encoder toy_nn_Linear
                                "grid" 3 2 16 19 512 8 2 64)))
                   (enc_forward
                      (encoder (HashEncoder_init toy_get_encoder toy_nn_Linear
                                  "grid" 3 2 16 19 512 8 2 64))
                      [[0; 0; 0]%R] (Some 1%R)))) ∧
    (∀ l0 t, toy_heap !! l0 = Some t → h' !! l0 = Some t).
Proof.
  apply (HashEncoder_forward_value toy_get_encoder toy_nn_Linear "grid"
           3 2 16 19 512 8 2 64 _ 0%nat 1%R toy_heap [[0; 0; 0]%R]).
  - reflexivity.
  - exact toy_Linear_contract.
  - exact toy_encoder_contract.
  - lia.
  - reflexivity.
Defined.

(** ** NeRFNetwork: what the results depend on *)

(** The tri-plane split of [common_forward], in a network built by [__init__]
    (from libraries that keep their contracts), on two valid inputs ([N, 3]
    and [N', 3]): the feature of each plane depends on its two coordinates
    only. For two inputs that agree on columns (0, 1), the XY features are the
    same tensor values; likewise for columns (1, 2) and YZ, and for columns
    (0, 2) and XZ. *)
Theorem common_forward_planes get_encoder nn_Linear (o : Opt)
    (self : NeRFNetwork) (x x' : loc) (h : heap) (xv xv' : list (list R))
    (n n' : nat) :
  self = NeRFNetwork_init get_encoder nn_Linear o →
  Linear_contract nn_Linear → encoder_contract get_encoder →
  h !! x = Some (Mat xv) → h !! x' = Some (Mat xv') →
  has_shape n 3 xv → has_shape n' 3 xv' →
  ∃ fs h1 fs' h1',
    common_forward self x h = (Ok fs, h1) ∧
    common_forward self x' h = (Ok fs', h1') ∧
    (take_cols [0; 1]%nat xv = take_cols [0; 1]%nat xv' →
     h1 !! (fs.1.1.2) = h1' !! (fs'.1.1.2)) ∧
    (take_cols [1; 2]%nat xv = take_cols [1; 2]%nat xv' →
     h1 !! (fs.1.2) = h1' !! (fs'.1.2)) ∧
    (take_cols [0; 2]%nat xv = take_cols [0; 2]%nat xv' →
     h1 !! (fs.2) = h1' !! (fs'.2)).
Proof.
  intros -> HL HE Hx Hx' Sx Sx'.
  pose proof (NeRFNetwork_init_spatial_fits _ _ o HL HE) as Hfit.
  set (self := NeRFNetwork_init get_encoder nn_Linear o) in *.
  destruct (wp_common_forward self x h xv n
              (λ fs h', features_at self xv fs h') Hfit Sx Hx)
    as (fs & h1 & E & P); [auto |].
  destruct (wp_common_forward self x' h xv' n'
              (λ fs h', features_at self xv' fs h') Hfit Sx' Hx')
    as (fs' & h1' & E' & P'); [auto |].
  exists fs, h1, fs', h1'. split; [exact E |]. split; [exact E' |].
  destruct fs as [[[a b] c] e], fs' as [[[a' b'] c'] e'].
  destruct P as (_ & Pb & Pc & Pe), P' as (_ & Pb' & Pc' & Pe'). cbn.
  rewrite Pb, Pb', Pc, Pc', Pe, Pe'.
  repeat split; intros ->; reflexivity.
Qed.

Lemma common_forward_planes_witness :
  ∃ fs h1 fs' h1',
    common_forward (toy_network true) 0%nat toy_heap = (Ok fs, h1) ∧
    common_forward (toy_network true) 1%nat toy_heap = (Ok fs', h1') ∧
    (take_cols [0; 1]%nat [[0; 0; 0]%R] = take_cols [0; 1]%nat [[0; 0; 1]%R] →
     h1 !! (fs.1.1.2) = h1' !! (fs'.1.1.2)) ∧
    (take_cols [1; 2]%nat [[0; 0; 0]%R] = take_cols [1; 2]%nat [[0; 0; 1]%R] →
     h1 !! (fs.1.2) = h1' !! (fs'.1.2)) ∧
    (take_cols [0; 2]%nat [[0; 0; 0]%R] = take_cols [0; 2]%nat [[0; 0; 1]%R] →
     h1 !! (fs.2) = h1' !! (fs'.2)).
Proof.
  apply (common_forward_planes toy_get_encoder toy_nn_Linear
           {| cuda_ray := true; opt_bound := 1%R |} (toy_network true)
           0%nat 1%nat toy_heap [[0; 0; 0]%R] [[0; 0; 1]%R] 1 1).
  - reflexivity.
  - exact toy_Linear_contract.
  - exact toy_encoder_contract.
  - reflexivity.
  - reflexivity.
  - split; [reflexivity | repeat constructor].
  - split; [reflexivity | repeat constructor].
Defined.

(** In a network built by [__init__] (from libraries that keep their
    contracts, the view encoder reporting a non-negative number of channels),
    on valid inputs ([x], [d] and [d'] all [N, 3]), the sigma of [forward]
    depends on the point alone: another direction and another shading mode
    give the same sigma values. *)
Theorem forward_sigma_ignores_view get_encoder nn_Linear (o : Opt)
    (self : NeRFNetwork) (x d d' : loc) (shading shading' : string)
    (h : heap) (xv dv dv' : list (list R)) (n : nat) :
  self = NeRFNetwork_init get_encoder nn_Linear o →
  Linear_contract nn_Linear → encoder_contract get_encoder →
  0 <= view_in_dim self →
  h !! x = Some (Mat xv) → h !! d = Some (Mat dv) → h !! d' = Some (Mat dv') →
  has_shape n 3 xv → has_shape n 3 dv → has_shape n 3 dv' →
  ∃ r h1 r' h1' s,
    forward self x d shading h = (Ok r, h1) ∧
    forward self x d' shading' h = (Ok r', h1') ∧
    value_at r "sigma" h1 = Some (Some (Vec s)) ∧
    value_at r' "sigma" h1' = Some (Some (Vec s)).
Proof.
  intros -> HL HE Hvd Hx Hd Hd' Sx Sd Sd'.
  pose proof (NeRFNetwork_init_spatial_fits _ _ o HL HE) as Hfit.
  pose proof (NeRFNetwork_init_view_fits _ _ o HL HE Hvd) as Hview.
  set (self := NeRFNetwork_init get_encoder nn_Linear o) in *.
  destruct (wp_forward self x d shading h xv dv n Hfit Hview Sx Sd Hx Hd)
    as (r & h1 & E & _ & P).
  destruct (wp_forward self x d' shading' h xv dv' n Hfit Hview Sx Sd' Hx Hd')
    as (r' & h1' & E' & _ & P').
  exists r, h1, r', h1', (sigma_value self xv).
  split; [exact E |]. split; [exact E' |].
  now rewrite (forward_post_sigma _ _ _ _ _ _ P),
    (forward_post_sigma _ _ _ _ _ _ P').
Qed.

Lemma forward_sigma_ignores_view_witness :
  ∃ r h1 r' h1' s,
    forward (toy_network true) 0%nat 1%nat "full" toy_heap = (Ok r, h1) ∧
    forward (toy_network true) 0%nat 0%nat "diffuse" toy_heap = (Ok r', h1') ∧
    value_at r "sigma" h1 = Some (Some (Vec s)) ∧
    value_at r' "sigma" h1' = Some (Some (Vec s)).
Proof.
  apply (forward_sigma_ignores_view toy_get_encoder toy_nn_Linear
           {| cuda_ray := true; opt_bound := 1%R |} (toy_network true)
           0%nat 1%nat 0%nat "full" "diffuse" toy_heap
           [[0; 0; 0]%R] [[0; 0; 1]%R] [[0; 0; 0]%R] 1).
  - reflexivity.
  - exact toy_Linear_contract.
  - exact toy_encoder_contract.
  - cbn. lia.
  - reflexivity.
  - reflexivity.
  - reflexivity.
  - split; [reflexivity | repeat constructor].
  - split; [reflexivity | repeat constructor].
  - split; [reflexivity | repeat constructor].
Defined.

(** Diffuse shading does not depend on the view. In a network built by
    [__init__] (from libraries that keep their contracts, the view encoder
    reporting a non-negative number of channels), on valid inputs ([x], [d]
    and [d'] all [N, 3]), [forward(x, d, 'diffuse')] returns the same color
    values for every direction, with [None] as specular; and it is the same
    call whatever [view_mlp] is (the view MLP is not evaluated). *)
Theorem forward_diffuse_view_independent get_encoder nn_Linear (o : Opt)
    (self : NeRFNetwork) (m : MLP) (x d d' : loc) (h : heap)
    (xv dv dv' : list (list R)) (n : nat) :
  self = NeRFNetwork_init get_encoder nn_Linear o →
  Linear_contract nn_Linear → encoder_contract get_encoder →
  0 <= view_in_dim self →
  h !! x = Some (Mat xv) → h !! d = Some (Mat dv) → h !! d' = Some (Mat dv') →
  has_shape n 3 xv → has_shape n 3 dv → has_shape n 3 dv' →
  (∃ r h1 r' h1' c,
     forward self x d "diffuse" h = (Ok r, h1) ∧
     forward self x d' "diffuse" h = (Ok r', h1') ∧
     value_at r "color" h1 = Some (Some (Mat c)) ∧
     value_at r' "color" h1' = Some (Some (Mat c)) ∧
     value_at r "specular" h1 = Some None ∧
     value_at r' "specular" h1' = Some None) ∧
  forward (set_view_mlp self m) x d "diffuse" h
  = forward self x d "diffuse" h.
Proof.
  intros -> HL HE Hvd Hx Hd Hd' Sx Sd Sd'.
  pose proof (NeRFNetwork_init_spatial_fits _ _ o HL HE) as Hfit.
  pose proof (NeRFNetwork_init_view_fits _ _ o HL HE Hvd) as Hview.
  set (self := NeRFNetwork_init get_encoder nn_Linear o) in *.
  split; [| reflexivity].
  destruct (wp_forward self x d "diffuse" h xv dv n Hfit Hview Sx Sd Hx Hd)
    as (r & h1 & E & _ & P).
  destruct (wp_forward self x d' "diffuse" h xv dv' n Hfit Hview Sx Sd' Hx Hd')
    as (r' & h1' & E' & _ & P').
  exists r, h1, r', h1', (diffuse_value self xv).
  split; [exact E |]. split; [exact E' |].
  rewrite (forward_post_color _ _ _ _ _ _ P),
    (forward_post_color _ _ _ _ _ _ P').
  rewrite (forward_post_specular _ _ _ _ _ _ P),
    (forward_post_specular _ _ _ _ _ _ P').
  now repeat split.
Qed.

Lemma forward_diffuse_view_independent_witness :
  (∃ r h1 r' h1' c,
     forward (toy_network true) 0%nat 1%nat "diffuse" toy_heap = (Ok r, h1) ∧
     forward (toy_network true) 0%nat 0%nat "diffuse" toy_heap = (Ok r', h1') ∧
     value_at r "color" h1 = Some (Some (Mat c)) ∧
     value_at r' "color" h1' = Some (Some (Mat c)) ∧
     value_at r "specular" h1 = Some None ∧
     value_at r' "specular" h1' = Some None) ∧
  forward (set_view_mlp (toy_network true)
             (MLP_init toy_nn_Linear "other" 1 1 1 7 false))
    0%nat 1%nat "diffuse" toy_heap
  = forward (toy_network true) 0%nat 1%nat "diffuse" toy_heap.
Proof.
  apply (forward_diffuse_view_independent toy_get_encoder toy_nn_Linear
           {| cuda_ray := true; opt_bound := 1%R |} (toy_network true)
           (MLP_init toy_nn_Linear "other" 1 1 1 7 false) 0%nat 1%nat 0%nat
           toy_heap [[0; 0; 0]%R] [[0; 0; 1]%R] [[0; 0; 0]%R] 1).
  - reflexivity.
  - exact toy_Linear_contract.
  - exact toy_encoder_contract.
  - cbn. lia.
  - reflexivity.
  - reflexivity.
  - reflexivity.
  - split; [reflexivity | repeat constructor].
  - split; [reflexivity | repeat constructor].
  - split; [reflexivity | repeat constructor].
Defined.

(** ** NeRFNetwork: ranges *)









(** ** NeRFNetwork: tensor objects *)

Lemma wp_torch_map_fresh g x h t (Q : loc → heap → Prop) :
  h !! x = Some t →
  (∀ l h', extends h h' → h !! l = None → h' !! l = Some (tmap g t) →
           Q l h') →
  wp (torch_map g x) h Q.
Proof.
  intros Hx HQ. exists (length h), (h ++ [tmap g t]).
  split; [unfold torch_map; now rewrite (bind_ok _ _ _ _ _ (get_ok _ _ _ Hx)) |].
  apply HQ; [apply extends_app | | apply lookup_snoc].
  apply lookup_ge_None. lia.
Qed.

(** In a network built by [__init__] (from libraries that keep their
    contracts, the view encoder reporting a non-negative number of channels),
    on valid inputs ([x] and [d] both [N, 3]): in the 'specular' mode the
    dictionary of [forward] binds [color] and [specular] to one and the same
    tensor object; in every mode other than 'diffuse' and 'specular' they are
    two objects. *)
Theorem forward_color_specular_objects get_encoder nn_Linear (o : Opt)
    (self : NeRFNetwork) (x d : loc) (shading : string) (h : heap)
    (xv dv : list (list R)) (n : nat) :
  self = NeRFNetwork_init get_encoder nn_Linear o →
  Linear_contract nn_Linear → encoder_contract get_encoder →
  0 <= view_in_dim self →
  h !! x = Some (Mat xv) → h !! d = Some (Mat dv) →
  has_shape n 3 xv → has_shape n 3 dv →
  shading ≠ "diffuse" →
  ∃ r h' lc ls,
    forward self x d shading h = (Ok r, h') ∧
    r !! "color" = Some (Some lc) ∧ r !! "specular" = Some (Some ls) ∧
    (lc = ls ↔ shading = "specular").
Proof.
  intros -> HL HE Hvd Hx Hd Sx Sd Hnd.
  pose proof (NeRFNetwork_init_spatial_fits _ _ o HL HE) as Hfit.
  pose proof (NeRFNetwork_init_view_fits _ _ o HL HE Hvd) as Hview.
  set (self := NeRFNetwork_init get_encoder nn_Linear o) in *.
  pose proof (f_value_fits self n xv Hfit (proj1 Sx)) as Sf.
  pose proof (diffuse_value_fits self n xv Hfit (proj1 Sx)) as Sdiff.
  pose proof (f_specular_value_fits self n xv Hfit (proj1 Sx)) as Sfs.
  pose proof (specular_value_fits self n xv dv Hfit Hview (proj1 Sx)
                (proj1 Sd)) as Sspec.
  destruct Hview as (Wv & c & Henc & Hvfit & Hvout).
  assert (Senc : has_shape n c (enc_forward (view_encoder self) dv None)).
  { rewrite <- (proj1 Sd). apply Henc. }
  pose proof (cat3_shape _ _ _ _ _ _ _ Sdiff Sfs Senc) as Scat.
  pose proof (extends_refl h) as Hext.
  assert (Hgoal : wp (forward self x d shading) h
            (λ r _, ∃ lc ls, r !! "color" = Some (Some lc) ∧
                             r !! "specular" = Some (Some ls) ∧
                             (lc = ls ↔ shading = "specular"))).
  { unfold forward.
    apply wp_bind, (wp_common_forward _ _ _ _ n _ Hfit Sx Hx).
    intros fs hfs E Hfs. carry E.
    apply wp_bind, (wp_sum_features _ _ _ _ n _ Hfit Sx Hfs).
    intros f hf E Hf. carry E. clear Hfs.
    step wp_torch_channel. step wp_sigma_of. step wp_torch_slice.
    step wp_torch_map. step wp_torch_slice. step wp_torch_map.
    step wp_Encoder_call.
    rewrite (eqb_false _ _ Hnd).
    apply wp_bind, wp_bind. eapply wp_torch_cat3; [side .. |].
    intros lc hc E Hlc. carry E.
    step wp_MLP_forward.
    apply wp_bind. eapply wp_torch_map; [eassumption |].
    intros lsp hsp E Hlsp. carry E.
    destruct (String.eqb_spec shading "specular") as [Hs | Hs].
    { apply wp_ret, wp_ret. exists lsp, lsp. now repeat split. }
    step wp_torch_add.
    apply wp_bind. eapply wp_torch_map_fresh; [eassumption |].
    intros lcol hcol E Hfresh Hlcol.
    assert (Hne : lcol ≠ lsp).
    { intros ->. match goal with
                 | H : _ !! lsp = Some _ |- _ => rewrite Hfresh in H
                 end. discriminate. }
    apply wp_ret, wp_ret. exists lcol, lsp.
    split; [reflexivity |]. split; [reflexivity |]. tauto. }
  destruct Hgoal as (r & h' & E & lc & ls & Hc & Hs & Hiff).
  now exists r, h', lc, ls.
Qed.

Lemma forward_color_specular_objects_witness :
  ∃ r h' lc ls,
    forward (toy_network true) 0%nat 1%nat "specular" toy_heap = (Ok r, h') ∧
    r !! "color" = Some (Some lc) ∧ r !! "specular" = Some (Some ls) ∧
    (lc = ls ↔ "specular" = "specular").
Proof.
  apply (forward_color_specular_objects toy_get_encoder toy_nn_Linear
           {| cuda_ray := true; opt_bound := 1%R |} (toy_network true)
           0%nat 1%nat "specular" toy_heap [[0; 0; 0]%R] [[0; 0; 1]%R] 1).
  - reflexivity.
  - exact toy_Linear_contract.
  - exact toy_encoder_contract.
  - cbn. lia.
  - reflexivity.
  - reflexivity.
  - split; [reflexivity | repeat constructor].
  - split; [reflexivity | repeat constructor].
  - discriminate.
Defined.



(** ** NeRFNetwork: shapes *)

(** A network built by [__init__] from libraries that keep their contracts
    (the view encoder reporting a non-negative number of channels), on [N]
    points and [N] directions of three coordinates each ([x] and [d] both
    [N, 3]): [forward] returns a sigma of [N] entries, an [N, 3] color in
    every shading mode, and an [N, 3] specular color when there is one. *)
Theorem forward_shapes get_encoder nn_Linear (o : Opt) (self : NeRFNetwork)
    (x d : loc) (shading : string) (h : heap) (xv dv : list (list R))
    (n : nat) :
  self = NeRFNetwork_init get_encoder nn_Linear o →
  Linear_contract nn_Linear → encoder_contract get_encoder →
  0 <= view_in_dim self →
  h !! x = Some (Mat xv) → h !! d = Some (Mat dv) →
  has_shape n 3 xv → has_shape n 3 dv →
  ∃ r h' s c,
    forward self x d shading h = (Ok r, h') ∧
    value_at r "sigma" h' = Some (Some (Vec s)) ∧ length s = n ∧
    value_at r "color" h' = Some (Some (Mat c)) ∧ has_shape n 3 c ∧
    ∀ sp, value_at r "specular" h' = Some (Some (Mat sp)) →
          has_shape n 3 sp.
Proof.
  intros -> HL HE Hvd Hx Hd Sx Sd.
  pose proof (NeRFNetwork_init_spatial_fits _ _ o HL HE) as Hfit.
  pose proof (NeRFNetwork_init_view_fits _ _ o HL HE Hvd) as Hview.
  set (self := NeRFNetwork_init get_encoder nn_Linear o) in *.
  destruct (wp_forward self x d shading h xv dv n Hfit Hview Sx Sd Hx Hd)
    as (r & h' & E & _ & P).
  pose proof (f_value_fits self n xv Hfit (proj1 Sx)) as Hf.
  exists r, h', (sigma_value self xv), (color_value self xv dv shading).
  split; [exact E |].
  split; [exact (forward_post_sigma _ _ _ _ _ _ P) |].
  split; [unfold sigma_value, channel; rewrite !length_map; apply Hf |].
  split; [exact (forward_post_color _ _ _ _ _ _ P) |]. split.
  - exact (color_value_fits self n xv dv shading Hfit Hview (proj1 Sx)
             (proj1 Sd)).
  - intros sp Hr. rewrite (forward_post_specular _ _ _ _ _ _ P) in Hr.
    destruct (String.eqb shading "diffuse"); [discriminate |].
    injection Hr as <-.
    exact (specular_value_fits self n xv dv Hfit Hview (proj1 Sx) (proj1 Sd)).
Qed.

Lemma forward_shapes_witness :
  ∃ r h' s c,
    forward (toy_network true) 0%nat 1%nat "full" toy_heap = (Ok r, h') ∧
    value_at r "sigma" h' = Some (Some (Vec s)) ∧ length s = 1%nat ∧
    value_at r "color" h' = Some (Some (Mat c)) ∧ has_shape 1 3 c ∧
    ∀ sp, value_at r "specular" h' = Some (Some (Mat sp)) →
          has_shape 1 3 sp.
Proof.
  apply (forward_shapes toy_get_encoder toy_nn_Linear
           {| cuda_ray := true; opt_bound := 1%R |} (toy_network true)
           0%nat 1%nat "full" toy_heap [[0; 0; 0]%R] [[0; 0; 1]%R] 1).
  - reflexivity.
  - exact toy_Linear_contract.
  - exact toy_encoder_contract.
  - cbn. lia.
  - reflexivity.
  - reflexivity.
  - split; [reflexivity | repeat constructor].
  - split; [reflexivity | repeat constructor].
Defined.

Lemma squeeze_last_one_channel (n : nat) (m : list (list R)) :
  has_shape n 1 m → squeeze_last (Mat m) = Vec (channel 0 m).
Proof.
  intros [_ Hrows]. cbn.
  replace (forallb (λ row, Nat.eqb (length row) 1) m) with true;
    [reflexivity |].
  symmetry. apply forallb_forall. intros row Hrow.
  apply Nat.eqb_eq, (proj1 (Forall_forall _ _) Hrows), list_elem_of_In, Hrow.
Qed.

(** A network built by [__init__] with [cuda_ray] false from libraries
    that keep their contracts: for the two valid proposals 0 and 1,
    [density] returns a sigma of rank one with one entry per point (the
    proposal MLP puts out one channel and [squeeze(-1)] drops it). *)
Theorem density_proposal_shape get_encoder nn_Linear (o : Opt) (x : loc)
    (p : Z) (h : heap) (xv : list (list R)) :
  Linear_contract nn_Linear → encoder_contract get_encoder →
  cuda_ray o = false → 0 <= p < 2 → h !! x = Some (Mat xv) →
  ∃ r h' s,
    density (NeRFNetwork_init get_encoder nn_Linear o) x p h = (Ok r, h') ∧
    value_at r "sigma" h' = Some (Some (Vec s)) ∧
    length s = length xv ∧
    r !! "color" = None.
Proof.
  intros HL HE Hc Hp Hx.
  destruct (NeRFNetwork_init_prop_modules get_encoder nn_Linear o Hc)
    as (kw0 & kw1 & Hencs & Hmlps).
  set (self := NeRFNetwork_init get_encoder nn_Linear o) in *.
  assert (Hcase : ∃ pe pm k owner,
            [fst (get_encoder "prop_encoders.0" "hashgrid" kw0);
             fst (get_encoder "prop_encoders.1" "hashgrid" kw1)]
              !! Z.to_nat p = Some pe ∧
            [MLP_init nn_Linear "prop_mlp.0"
               (snd (get_encoder "prop_encoders.0" "hashgrid" kw0)) 1 16 2
               false;
             MLP_init nn_Linear "prop_mlp.1"
               (snd (get_encoder "prop_encoders.1" "hashgrid" kw1)) 1 16 2
               false] !! Z.to_nat p = Some pm ∧
            pm = MLP_init nn_Linear owner k 1 16 2 false ∧
            ∀ v b, has_shape (length v) (Z.to_nat k) (enc_forward pe v b)).
  { assert (Hp01 : p = 0 ∨ p = 1) by lia.
    destruct Hp01 as [-> | ->]; eexists _, _, _, _;
      (split; [reflexivity |]); (split; [reflexivity |]);
      (split; [reflexivity |]); intros v b; apply HE. }
  destruct Hcase as (pe & pm & k & owner & Hpe & Hpm & -> & Hlen).
  assert (Hfit : prop_fits pe (MLP_init nn_Linear owner k 1 16 2 false)).
  { split; [apply MLP_init_wf |]. exists (Z.to_nat k).
    split; [exact Hlen | now apply layers_fit_init]. }
  destruct (wp_density_prop self x (Z.to_nat p) h xv _ _ _ _
              Hencs Hmlps Hpe Hpm Hfit Hx)
    as (r & h' & E & _ & P).
  rewrite Z2Nat.id in E by lia.
  assert (Hshape : has_shape (length xv) 1
            (MLP_apply (net (MLP_init nn_Linear owner k 1 16 2 false))
               (enc_forward pe xv (Some (bound self))))).
  { rewrite <- (proj1 (Hlen xv (Some (bound self)))).
    now apply (MLP_init_shape _ _ _ 1). }
  unfold prop_sigma_value in P.
  rewrite (squeeze_last_one_channel _ _ Hshape) in P. cbn [tmap] in P.
  eexists r, h', _. split; [exact E |].
  split; [exact (density_post_sigma _ _ _ P) |].
  split; [unfold channel; rewrite !length_map; apply Hshape |].
  now apply (density_post_only_sigma _ _ _ _ P).
Qed.

Lemma density_proposal_shape_witness :
  ∃ r h' s,
    density (toy_network false) 0%nat 1 toy_heap = (Ok r, h') ∧
    value_at r "sigma" h' = Some (Some (Vec s)) ∧
    length s = length [[0; 0; 0]%R] ∧
    r !! "color" = None.
Proof.
  apply (density_proposal_shape toy_get_encoder toy_nn_Linear
           {| cuda_ray := false; opt_bound := 1%R |} 0%nat 1 toy_heap
           [[0; 0; 0]%R]).
  - exact toy_Linear_contract.
  - exact toy_encoder_contract.
  - reflexivity.
  - lia.
  - reflexivity.
Defined.

(** ** Layers that fit *)

(** When [nn.Linear] makes layers of the sizes it is asked for, the layers
    that [MLP.__init__] makes fit one another for every [num_layers] and
    every choice of sizes: the first takes [dim_in] channels and each
    later one takes what the one before puts out. *)
Theorem MLP_init_layers_fit nn_Linear (owner : string) (di do dh n : Z)
    (b : bool) :
  Linear_contract nn_Linear →
  layers_fit (Z.to_nat di) (net (MLP_init nn_Linear owner di do dh n b)).
Proof. apply layers_fit_init. Qed.

Lemma MLP_init_layers_fit_witness :
  layers_fit (Z.to_nat 9) (net (MLP_init toy_nn_Linear "view_mlp" 9 3 16 3 true)).
Proof.
  apply (MLP_init_layers_fit toy_nn_Linear "view_mlp" 9 3 16 3 true).
  exact toy_Linear_contract.
Defined.

(** In a [HashEncoder] built by [__init__] from libraries that keep their
    contracts, the MLP fits the encoder: the encoding of [N] points is an
    [N, dim_in] tensor for the [dim_in] of the MLP, and the layers of the
    MLP fit rows of [dim_in] channels. *)
Theorem HashEncoder_init_mlp_fits get_encoder nn_Linear (owner : string)
    (a b c d e od nl hd : Z) (v : list (list R)) (bd : R) :
  Linear_contract nn_Linear → encoder_contract get_encoder →
  has_shape (length v)
    (Z.to_nat (dim_in (mlp (HashEncoder_init get_encoder nn_Linear owner
                              a b c d e od nl hd))))
    (enc_forward
       (encoder (HashEncoder_init get_encoder nn_Linear owner
                   a b c d e od nl hd)) v (Some bd)) ∧
  layers_fit
    (Z.to_nat (dim_in (mlp (HashEncoder_init get_encoder nn_Linear owner
                              a b c d e od nl hd))))
    (net (mlp (HashEncoder_init get_encoder nn_Linear owner
                 a b c d e od nl hd))).
Proof.
  intros HL HE. unfold HashEncoder_init.
  pose proof (HE (owner +:+ ".encoder") "tiledgrid"
                [ ("input_dim", PInt a); ("level_dim", PInt b);
                  ("num_levels", PInt c); ("log2_hashmap_size", PInt d);
                  ("desired_resolution", PInt e);
                  ("interpolation", PStr "linear") ] v (Some bd)) as Hshape.
  destruct (get_encoder _ _ _) as [enc k]. cbn in *.
  split; [exact Hshape |]. now apply layers_fit_init.
Qed.

Lemma HashEncoder_init_mlp_fits_witness :
  has_shape (length [[0; 0; 0]%R])
    (Z.to_nat (dim_in (mlp (HashEncoder_init toy_get_encoder toy_nn_Linear
                              "grid" 3 2 16 19 512 8 2 64))))
    (enc_forward
       (encoder (HashEncoder_init toy_get_encoder toy_nn_Linear "grid"
                   3 2 16 19 512 8 2 64)) [[0; 0; 0]%R] (Some 1%R)) ∧
  layers_fit
    (Z.to_nat (dim_in (mlp (HashEncoder_init toy_get_encoder toy_nn_Linear
                              "grid" 3 2 16 19 512 8 2 64))))
    (net (mlp (HashEncoder_init toy_get_encoder toy_nn_Linear "grid"
                 3 2 16 19 512 8 2 64))).
Proof.
  apply (HashEncoder_init_mlp_fits toy_get_encoder toy_nn_Linear "grid"
           3 2 16 19 512 8 2 64 [[0; 0; 0]%R] 1%R).
  - exact toy_Linear_contract.
  - exact toy_encoder_contract.
Defined.

(** In a network built by [__init__] from libraries that keep their
    contracts, with a view encoder of a non-negative number of channels,
    the view MLP fits what [forward] hands to it: the concatenation of
    diffuse (3 channels), f_specular (4 channels) and the encoded
    direction is an [N, dim_in] tensor for the [dim_in = 3 + 4 +
    view_in_dim] of [view_mlp], whose layers fit such rows. *)
Theorem view_mlp_input_fits get_encoder nn_Linear (o : Opt)
    (xv dv : list (list R)) :
  Linear_contract nn_Linear → encoder_contract get_encoder →
  length dv = length xv →
  0 <= view_in_dim (NeRFNetwork_init get_encoder nn_Linear o) →
  dim_in (view_mlp (NeRFNetwork_init get_encoder nn_Linear o))
  = 3 + 4 + view_in_dim (NeRFNetwork_init get_encoder nn_Linear o) ∧
  has_shape (length xv)
    (Z.to_nat (dim_in (view_mlp (NeRFNetwork_init get_encoder nn_Linear o))))
    (cat_last
       [diffuse_value (NeRFNetwork_init get_encoder nn_Linear o) xv;
        f_specular_value (NeRFNetwork_init get_encoder nn_Linear o) xv;
        enc_forward (view_encoder (NeRFNetwork_init get_encoder nn_Linear o))
          dv None]) ∧
  layers_fit
    (Z.to_nat (dim_in (view_mlp (NeRFNetwork_init get_encoder nn_Linear o))))
    (net (view_mlp (NeRFNetwork_init get_encoder nn_Linear o))).
Proof.
  intros HL HE Hdv Hvd.
  pose proof (f_value_fits _ (length xv) xv
                (NeRFNetwork_init_spatial_fits get_encoder nn_Linear o HL HE)
                eq_refl) as Hf.
  destruct (NeRFNetwork_init_fields get_encoder nn_Linear o)
    as (_ & _ & _ & _ & Hve & Hvi & Hvm).
  rewrite Hvm. cbn [dim_in MLP_init]. split; [reflexivity |]. split.
  - replace (Z.to_nat
               (3 + 4 + view_in_dim (NeRFNetwork_init get_encoder nn_Linear o)))
      with (3 + (4 + Z.to_nat
                       (view_in_dim
                          (NeRFNetwork_init get_encoder nn_Linear o))))%nat
      by lia.
    apply cat3_shape.
    + apply map_map_shape. exact (slice_shape _ _ _ 1 (Some 4%nat) Hf).
    + apply map_map_shape. exact (slice_shape _ _ _ 4 None Hf).
    + rewrite Hve, Hvi, <- Hdv. apply HE.
  - now apply layers_fit_init.
Qed.

Lemma view_mlp_input_fits_witness :
  dim_in (view_mlp (toy_network true))
  = 3 + 4 + view_in_dim (toy_network true) ∧
  has_shape (length [[0; 0; 0]%R])
    (Z.to_nat (dim_in (view_mlp (toy_network true))))
    (cat_last
       [diffuse_value (toy_network true) [[0; 0; 0]%R];
        f_specular_value (toy_network true) [[0; 0; 0]%R];
        enc_forward (view_encoder (toy_network true)) [[0; 0; 1]%R] None]) ∧
  layers_fit (Z.to_nat (dim_in (view_mlp (toy_network true))))
    (net (view_mlp (toy_network true))).
Proof.
  apply (view_mlp_input_fits toy_get_encoder toy_nn_Linear
           {| cuda_ray := true; opt_bound := 1%R |}
           [[0; 0; 0]%R] [[0; 0; 1]%R]).
  - exact toy_Linear_contract.
  - exact toy_encoder_contract.
  - reflexivity.
  - cbn. lia.
Defined.

(** ** Parameters *)

Lemma flat_map_length_const {A B} (g : A → list B) (c : nat) (l : list A) :
  Forall (λ a, length (g a) = c) l → length (flat_map g l) = (length l * c)%nat.
Proof.
  induction 1 as [| a l Ha _ IH]; [reflexivity |].
  cbn. rewrite length_app, Ha, IH. lia.
Qed.

(** When [nn.Linear] makes a bias exactly when asked for, an MLP built by
    [__init__] owns one parameter tensor per layer under [bias=False] and
    two (weight and bias) per layer under [bias=True]; an MLP with
    [num_layers <= 0] owns none. *)
Theorem MLP_parameters_count nn_Linear (owner : string) (di do dh n : Z)
    (b : bool) :
  Linear_contract nn_Linear →
  length (MLP_parameters (MLP_init nn_Linear owner di do dh n b))
  = (Z.to_nat n * (if b then 2 else 1))%nat.
Proof.
  intros HL. unfold MLP_parameters.
  rewrite (flat_map_length_const _ (if b then 2 else 1)%nat).
  - f_equal. exact (MLP_init_wf nn_Linear owner di do dh n b).
  - unfold MLP_init. cbn [net]. apply Forall_forall. intros L HLin.
    apply list_elem_of_In, in_map_iff in HLin. destruct HLin as (l & <- & _).
    unfold Linear_parameters.
    destruct (HL owner l (if l =? 0 then di else dh)
                (if l =? n - 1 then do else dh) b) as [_ Hb].
    destruct (bias _) as [bv |]; [destruct Hb as [-> _] | rewrite Hb];
      reflexivity.
Qed.

Lemma MLP_parameters_count_witness :
  length (MLP_parameters (MLP_init toy_nn_Linear "view_mlp" 9 3 16 3 true))
  = (Z.to_nat 3 * (if true then 2 else 1))%nat.
Proof.
  apply (MLP_parameters_count toy_nn_Linear "view_mlp" 9 3 16 3 true).
  exact toy_Linear_contract.
Defined.
